(** * Remote user actions of the mobile client, and the ChannelInfo record

    A shallow embedding of [app/actions/remote/user.ts] (fetchMe,
    fetchProfilesInChannel, fetchProfilesPerChannels, loadMe, updateMe) and
    of the constructor of the ChannelInfo model.

    The actions are asynchronous TypeScript functions that talk to three
    collaborators: the REST client of a server, the data operator of the
    server database, and a few helpers (forced logout, role refresh, error
    log).  Every call made to a collaborator is recorded, in program order,
    in a trace of events; what the collaborator answers is a parameter of
    the environment.  A function of the source becomes a function that
    returns its trace together with the way its promise settles. *)

From Stdlib Require Import ZArith Ascii String.
From stdpp Require Import base option list strings gmap.

Local Open Scope Z_scope.
Local Open Scope string_scope.
Local Open Scope list_scope.

(** ** JavaScript library functions used by the source *)

(** [s.split(' ')]: the pieces between the occurrences of one space.  The
    empty string has one piece, the empty string. *)
Fixpoint split_space (s : string) : list string :=
  match s with
  | EmptyString => [EmptyString]
  | String c rest =>
      if Ascii.eqb c " "%char then EmptyString :: split_space rest
      else match split_space rest with
           | [] => [String c EmptyString]
           | piece :: pieces => String c piece :: pieces
           end
  end.

Section JsSet.
Context {A : Type} `{EqDecision A}.

(** A [Set] keeps its elements in insertion order; [add] of an element
    that is already there changes nothing. *)
Definition Set_add (s : list A) (x : A) : list A :=
  if decide (x ∈ s) then s else s ++ [x].

(** [new Set(xs)], read back with [Array.from]. *)
Definition Set_from (xs : list A) : list A := foldl Set_add [] xs.
End JsSet.

(** A string is truthy when it is not empty. *)
Definition truthy (s : string) : bool :=
  match s with EmptyString => false | String _ _ => true end.

(** ** Data *)

Definition Error := string.

(** A profile object is known by its reference: [Set] compares objects by
    identity, and the objects themselves live in the heap of the
    environment. *)
Definition Ref := nat.

Module UserProfile.
Record t := { id : string; roles : string }.
End UserProfile.

Module Team.
Record t := { id : string; display_name : string }.
End Team.

Module TeamMembership.
Record t := { team_id : string; user_id : string; roles : string }.
End TeamMembership.

Module TeamUnread.
Record t := { team_id : string; msg_count : Z; mention_count : Z }.
End TeamUnread.

Module MyTeam.
Record t :=
  { id : string; roles : string; is_unread : bool; mentions_count : Z }.
End MyTeam.

Module Preference.
Record t :=
  { category : string; name : string; user_id : string; value : string }.
End Preference.

Module Role.
Record t := { id : string; name : string; permissions : list string }.
End Role.

Module IdValue.
Record t := { id : string; value : string }.
End IdValue.

(** The old-style client configuration and license: flat string tables. *)
Definition ClientConfig := list (string * string).
Definition ClientLicense := list (string * string).

(** A record of the local database, prepared or written. *)
Record Model := { table : string; key : string }.

(** The raw columns of a stored user ([user._raw]). *)
Module RawUser.
Record t := { id : string; roles : string }.
End RawUser.

Module UserModel.
Record t := { _raw : RawUser.t }.
(** The [roles] field of the model reads the raw column. *)
Definition roles (u : t) : string := RawUser.roles (_raw u).
End UserModel.

(** ** Promises and asynchronous functions *)

(** How a promise settles. *)
Inductive Promise (A : Type) : Type :=
| Resolved (a : A)
| Rejected (e : Error).
Arguments Resolved {A} a.
Arguments Rejected {A} e.

Inductive Event : Type :=
| EvAttachDevice (deviceToken : string)
| EvGetMe
| EvGetProfilesInChannel (channelId : string)
| EvGetMyTeams
| EvGetMyTeamMembers
| EvGetMyTeamUnreads
| EvGetMyPreferences
| EvGetClientConfigOld
| EvGetClientLicenseOld
| EvGetRolesByNames (names : list string)
| EvPatchMe (raw : RawUser.t)
| EvHandleUsers (prepareRecordsOnly : bool) (users : list Ref)
| EvHandleTeam (prepareRecordsOnly : bool) (teams : list Team.t)
| EvHandleTeamMemberships (prepareRecordsOnly : bool)
    (teamMemberships : list TeamMembership.t)
| EvHandleMyTeam (prepareRecordsOnly : bool) (myTeams : list MyTeam.t)
| EvHandleSystem (prepareRecordsOnly : bool) (systems : list IdValue.t)
| EvHandlePreferences (prepareRecordsOnly : bool)
    (preferences : list Preference.t)
| EvHandleRole (prepareRecordsOnly : bool) (roles : list Role.t)
| EvPrepareUsers (users : list Ref)
| EvBatchRecords (models : list Model)
| EvForceLogoutIfNecessary (serverUrl : string) (e : Error)
| EvLogError (e : Error)
| EvFetchRolesIfNeeded (serverUrl : string) (roles : list string)
| EvAnalyticsCreate (serverUrl : string)
| EvAnalyticsSetUserId (userId : string)
| EvAnalyticsSetUserRoles (roles : string).

(** An asynchronous computation: the calls it made, and how it settled. *)
Definition Async (A : Type) : Type := list Event * Promise A.

Definition ret {A} (a : A) : Async A := ([], Resolved a).

Definition throw {A} (e : Error) : Async A := ([], Rejected e).

Definition bind {A B} (m : Async A) (k : A → Async B) : Async B :=
  match m with
  | (t, Resolved a) => let r := k a in (t ++ r.1, r.2)
  | (t, Rejected e) => (t, Rejected e)
  end.

(** [try { m } catch (e) { h e }] *)
Definition try_catch {A} (m : Async A) (h : Error → Async A) : Async A :=
  match m with
  | (t, Resolved a) => (t, Resolved a)
  | (t, Rejected e) => let r := h e in (t ++ r.1, r.2)
  end.

(** A call that returns at once: the call happens now, and what it returns
    (a promise kept for later, or a plain value) is handed on as it is. *)
Definition request {A} (ev : Event) (returned : A) : Async A :=
  ([ev], Resolved returned).

(** [await p] *)
Definition await {A} (p : Promise A) : Async A := ([], p).

(** A call whose promise is dropped: nothing observes how it settles. *)
Definition fire (ev : Event) : Async unit := ([ev], Resolved tt).

(** The computations form a monad; stdpp's notations [x ← m; k] and
    [m;; k] are used for sequencing. *)
Global Instance Async_ret : MRet Async := @ret.
Global Instance Async_bind : MBind Async := λ A B k m, bind m k.

(** [await c(...)]: the call and the wait in one step. *)
Definition call {A} (ev : Event) (p : Promise A) : Async A :=
  p' ← request ev p; await p'.

(** [Promise.all] over promises whose calls were already made.  Of several
    rejections the join reports one; the model takes the first in array
    order. *)
Fixpoint Promise_all {A} (ps : list (Promise A)) : Promise (list A) :=
  match ps with
  | [] => Resolved []
  | p :: ps' =>
      match p, Promise_all ps' with
      | Resolved a, Resolved l => Resolved (a :: l)
      | Rejected e, _ => Rejected e
      | Resolved _, Rejected e => Rejected e
      end
  end.

(** A call of an asynchronous function, cut at its first [await]: the
    calls it makes at once, when it is called, and what it does after the
    wait. *)
Definition Started (A : Type) : Type := list Event * Async A.

(** The whole call: what it does at once, then the rest. *)
Definition finish {A} (s : Started A) : Async A := (s.1 ++ s.2.1, s.2.2).

(** [Promise.all] over calls of asynchronous functions.  Every call is
    started, in array order, before any of them goes on; each of them
    then runs to its end, whatever the others do.  The calls go on in the
    order in which their waits end, and the model takes the array order;
    of several rejections it reports the first in array order. *)
Definition Async_all {A} (calls : list (Started A)) : Async (list A) :=
  (concat (map fst calls) ++ concat (map (λ s, s.2.1) calls),
   Promise_all (map (λ s, s.2.2) calls)).

(** ** Collaborators *)

(** The REST client of one server: what each remote call answers. *)
Record Client := {
  attachDevice : string → Promise unit;
  getMe : Promise Ref;
  getProfilesInChannel : string → Promise (list Ref);
  getMyTeams : Promise (list Team.t);
  getMyTeamMembers : Promise (list TeamMembership.t);
  getMyTeamUnreads : Promise (list TeamUnread.t);
  getMyPreferences : Promise (list Preference.t);
  getClientConfigOld : Promise ClientConfig;
  getClientLicenseOld : Promise ClientLicense;
  getRolesByNames : list string → Promise (option (list Role.t));
  patchMe : RawUser.t → Promise (option Ref);
}.

(** The data operator of one server database.  Each handler takes the
    [prepareRecordsOnly] flag first. *)
Record ServerDataOperator := {
  handleUsers : bool → list Ref → Promise (list Model);
  handleTeam : bool → list Team.t → Promise (list Model);
  handleTeamMemberships : bool → list TeamMembership.t → Promise (list Model);
  handleMyTeam : bool → list MyTeam.t → Promise (list Model);
  handleSystem : bool → list IdValue.t → Promise (list Model);
  handlePreferences : bool → list Preference.t → Promise (list Model);
  handleRole : bool → list Role.t → Promise (list Model);
  batchRecords : list Model → Promise unit;
}.

(** An entry of [DatabaseManager.serverDatabases]. *)
Record ServerDatabase := {
  database : string;
  operator : ServerDataOperator;
}.

Record SystemIdentifiers := {
  CONFIG : string;
  LICENSE : string;
  CURRENT_USER_ID : string;
}.

(** Everything the actions read from outside: the heap of profile objects,
    the two registries, and the helpers imported from other modules. *)
Record Env := {
  heap : Ref → UserProfile.t;
  clients : gmap string Client;
  serverDatabases : gmap string ServerDatabase;
  forceLogoutIfNecessary : string → Error → Promise unit;
  fetchRolesIfNeeded : string → list string → Promise unit;
  prepareUsers : ServerDataOperator → list Ref → option (Promise (list Model));
  JSON_stringify : list (string * string) → string;
  SYSTEM_IDENTIFIERS : SystemIdentifiers;
}.

(** Modelled from the spec: [NetworkManager.getClient], whose source is not
    part of the excerpt.  Resolution fails with a "client not found"
    condition when the server was never registered. *)
Definition getClient (env : Env) (serverUrl : string) : Promise Client :=
  match clients env !! serverUrl with
  | Some client => Resolved client
  | None => Rejected (serverUrl +:+ " client not found")
  end.

(** ** Results *)

Module MyUserRequest.
Record t := { user : option Ref; error : option Error }.
End MyUserRequest.

Module ProfilesInChannelRequest.
Record t :=
  { users : option (list Ref); channelId : string; error : option Error }.
End ProfilesInChannelRequest.

Module ProfilesPerChannelRequest.
Record t :=
  { data : option (list ProfilesInChannelRequest.t); error : option Error }.
End ProfilesPerChannelRequest.

Module LoadMeResult.
Record t := { error : option Error; currentUser : option Ref }.
End LoadMeResult.

Module UpdateMeResult.
Record t := { data : option Ref; error : option Error }.
End UpdateMeResult.

Module LoadMeArgs.
Record t := { deviceToken : option string; user : option Ref }.
End LoadMeArgs.

(** ** fetchMe *)

Definition fetchMe (env : Env) (serverUrl : string) (fetchOnly : bool)
  : Async MyUserRequest.t :=
  match getClient env serverUrl with
  | Rejected error =>
      ret {| MyUserRequest.user := None; MyUserRequest.error := Some error |}
  | Resolved client =>
      try_catch
        (user ← call EvGetMe (getMe client);
         (if fetchOnly then ret tt
          else match serverDatabases env !! serverUrl with
               | Some sd => fire (EvHandleUsers false [user])
               | None => ret tt
               end);;
         ret {| MyUserRequest.user := Some user;
                MyUserRequest.error := None |})
        (λ error,
           call (EvForceLogoutIfNecessary serverUrl error)
                (forceLogoutIfNecessary env serverUrl error);;
           ret {| MyUserRequest.user := None;
                  MyUserRequest.error := Some error |})
  end.

(** ** fetchProfilesInChannel *)

(** The staging and commit of a list of users (lines 74-80 and 105-111):
    [prepareUsers], then [batchRecords] when some record was prepared. *)
Definition stageAndCommit (env : Env) (op : ServerDataOperator)
    (users : list Ref) : Async unit :=
  prepare ← request (EvPrepareUsers users) (prepareUsers env op users);
  match prepare with
  | None => ret tt
  | Some prepare =>
      models ← await prepare;
      match models with
      | [] => ret tt
      | _ :: _ => call (EvBatchRecords models) (batchRecords op models)
      end
  end.

(** [(u) => u.id !== excludeUserId], with [None] for a parameter that was
    not supplied. *)
Definition notExcluded (env : Env) (excludeUserId : option string)
    (u : Ref) : Prop :=
  Some (UserProfile.id (heap env u)) ≠ excludeUserId.

Global Instance notExcluded_dec env ex u : Decision (notExcluded env ex u).
Proof. unfold notExcluded. apply _. Defined.

Definition fetchProfilesInChannel (env : Env) (serverUrl channelId : string)
    (excludeUserId : option string) (fetchOnly : bool)
  : Async ProfilesInChannelRequest.t :=
  match getClient env serverUrl with
  | Rejected error =>
      ret {| ProfilesInChannelRequest.users := None;
             ProfilesInChannelRequest.channelId := channelId;
             ProfilesInChannelRequest.error := Some error |}
  | Resolved client =>
      try_catch
        (users ← call (EvGetProfilesInChannel channelId)
                      (getProfilesInChannel client channelId);
         let uniqueUsers := Set_from users in
         (if fetchOnly then ret tt
          else match serverDatabases env !! serverUrl with
               | Some sd =>
                   stageAndCommit env (operator sd)
                     (filter (notExcluded env excludeUserId) uniqueUsers)
               | None => ret tt
               end);;
         ret {| ProfilesInChannelRequest.users := Some uniqueUsers;
                ProfilesInChannelRequest.channelId := channelId;
                ProfilesInChannelRequest.error := None |})
        (λ error,
           fire (EvForceLogoutIfNecessary serverUrl error);;
           ret {| ProfilesInChannelRequest.users := None;
                  ProfilesInChannelRequest.channelId := channelId;
                  ProfilesInChannelRequest.error := Some error |})
  end.

(** [fetchProfilesInChannel] cut at the [await] of line 69: the client is
    resolved and the request sent when the function is called; the rest
    runs once the request has settled. *)
Definition fetchProfilesInChannelStart (env : Env)
    (serverUrl channelId : string) (excludeUserId : option string)
    (fetchOnly : bool) : Started ProfilesInChannelRequest.t :=
  match getClient env serverUrl with
  | Rejected error =>
      ([],
       ret {| ProfilesInChannelRequest.users := None;
              ProfilesInChannelRequest.channelId := channelId;
              ProfilesInChannelRequest.error := Some error |})
  | Resolved client =>
      ([EvGetProfilesInChannel channelId],
       try_catch
         (users ← await (getProfilesInChannel client channelId);
          let uniqueUsers := Set_from users in
          (if fetchOnly then ret tt
           else match serverDatabases env !! serverUrl with
                | Some sd =>
                    stageAndCommit env (operator sd)
                      (filter (notExcluded env excludeUserId) uniqueUsers)
                | None => ret tt
                end);;
          ret {| ProfilesInChannelRequest.users := Some uniqueUsers;
                 ProfilesInChannelRequest.channelId := channelId;
                 ProfilesInChannelRequest.error := None |})
         (λ error,
            fire (EvForceLogoutIfNecessary serverUrl error);;
            ret {| ProfilesInChannelRequest.users := None;
                   ProfilesInChannelRequest.channelId := channelId;
                   ProfilesInChannelRequest.error := Some error |}))
  end.

(** ** fetchProfilesPerChannels *)

(** The body of the loop of lines 100-104: the users of an entry that has
    a non-empty list are added to the set. *)
Definition collectStep (users : list Ref) (item : ProfilesInChannelRequest.t)
  : list Ref :=
  match ProfilesInChannelRequest.users item with
  | Some (u :: us) => foldl Set_add users (u :: us)
  | _ => users
  end.

(** Lines 99-104: the set of the users of every entry. *)
Definition collectUsers (data : list ProfilesInChannelRequest.t) : list Ref :=
  foldl collectStep [] data.

Definition fetchProfilesPerChannels (env : Env) (serverUrl : string)
    (channelIds : list string) (excludeUserId : option string)
    (fetchOnly : bool) : Async ProfilesPerChannelRequest.t :=
  try_catch
    (data ← Async_all
              (map (λ id, fetchProfilesInChannelStart env serverUrl id
                            excludeUserId true) channelIds);
     (if fetchOnly then ret tt
      else match serverDatabases env !! serverUrl with
           | Some sd =>
               stageAndCommit env (operator sd)
                 (filter (notExcluded env excludeUserId) (collectUsers data))
           | None => ret tt
           end);;
     ret {| ProfilesPerChannelRequest.data := Some data;
            ProfilesPerChannelRequest.error := None |})
    (λ error,
       ret {| ProfilesPerChannelRequest.data := None;
              ProfilesPerChannelRequest.error := Some error |}).

(** ** loadMe *)

(** The callback of [teamUnreads.map] (lines 188-191). *)
Definition myTeamOf (teamMemberships : list TeamMembership.t)
    (unread : TeamUnread.t) : MyTeam.t :=
  let matchingTeam :=
    List.find (λ team, String.eqb (TeamMembership.team_id team)
                                  (TeamUnread.team_id unread))
              teamMemberships in
  {| MyTeam.id := TeamUnread.team_id unread;
     MyTeam.roles := match matchingTeam with
                     | Some team => TeamMembership.roles team
                     | None => ""
                     end;
     MyTeam.is_unread := Z.ltb 0 (TeamUnread.msg_count unread);
     MyTeam.mentions_count := TeamUnread.mention_count unread |}.

(** The two loops of lines 226-233. *)
Definition collectRoles (userRoles : string)
    (teamMemberships : list TeamMembership.t) : list string :=
  let roles := foldl (λ roles role, roles ++ [role]) [] (split_space userRoles) in
  foldl (λ roles teamMember,
           roles ++ split_space (TeamMembership.roles teamMember))
        roles teamMemberships.

(** Lines 137-143: the device is attached and the current user fetched when
    the caller gave none. *)
Definition loadMeAuth (client : Client) (args : LoadMeArgs.t) : Async Ref :=
  match LoadMeArgs.deviceToken args with
  | Some deviceToken =>
      if truthy deviceToken
      then call (EvAttachDevice deviceToken) (attachDevice client deviceToken)
      else ret tt
  | None => ret tt
  end;;
  match LoadMeArgs.user args with
  | Some currentUser => ret currentUser
  | None => call EvGetMe (getMe client)
  end.

(** Lines 238-244: the role definitions are fetched and staged. *)
Definition loadMeRoles (client : Client) (op : ServerDataOperator)
    (rolesToLoad : list string) : Async (list Model) :=
  if (0 <? length rolesToLoad)%nat then
    rolesByName ← call (EvGetRolesByNames rolesToLoad)
                       (getRolesByNames client rolesToLoad);
    match rolesByName with
    | Some (r :: rs) =>
        call (EvHandleRole true (r :: rs)) (handleRole op true (r :: rs))
    | _ => ret []
    end
  else ret [].

(** Lines 153-248: the six-request join, the staging of the records, the
    role resolution, and the wait for every staged list.  The six requests
    are all sent before the first of them is awaited; of several
    rejections the join reports one, and the model takes the first in
    array order.  The result is the operator and the flattened list of
    prepared records. *)
Definition loadMePrepare (env : Env) (serverUrl : string) (client : Client)
    (currentUser : Ref) : Async (ServerDataOperator * list Model) :=
  let me := heap env currentUser in
  fire (EvAnalyticsCreate serverUrl);;
  fire (EvAnalyticsSetUserId (UserProfile.id me));;
  fire (EvAnalyticsSetUserRoles (UserProfile.roles me));;
  teamsRequest ← request EvGetMyTeams (getMyTeams client);
  teamMembersRequest ← request EvGetMyTeamMembers (getMyTeamMembers client);
  teamUnreadRequest ← request EvGetMyTeamUnreads (getMyTeamUnreads client);
  preferencesRequest ← request EvGetMyPreferences (getMyPreferences client);
  configRequest ← request EvGetClientConfigOld (getClientConfigOld client);
  licenseRequest ← request EvGetClientLicenseOld (getClientLicenseOld client);
  teams ← await teamsRequest;
  teamMemberships ← await teamMembersRequest;
  teamUnreads ← await teamUnreadRequest;
  preferences ← await preferencesRequest;
  config ← await configRequest;
  license ← await licenseRequest;
  op ← match serverDatabases env !! serverUrl with
       | Some sd => ret (operator sd)
       | None => throw "TypeError: undefined is not an object"
       end;
  teamRecords ← request (EvHandleTeam true teams) (handleTeam op true teams);
  teamMembershipRecords ←
    request (EvHandleTeamMemberships true teamMemberships)
            (handleTeamMemberships op true teamMemberships);
  let myTeams := map (myTeamOf teamMemberships) teamUnreads in
  myTeamRecords ← request (EvHandleMyTeam true myTeams)
                          (handleMyTeam op true myTeams);
  let systems :=
    [ {| IdValue.id := CONFIG (SYSTEM_IDENTIFIERS env);
         IdValue.value := JSON_stringify env config |};
      {| IdValue.id := LICENSE (SYSTEM_IDENTIFIERS env);
         IdValue.value := JSON_stringify env license |};
      {| IdValue.id := CURRENT_USER_ID (SYSTEM_IDENTIFIERS env);
         IdValue.value := UserProfile.id me |} ] in
  systemRecords ← request (EvHandleSystem true systems)
                          (handleSystem op true systems);
  userRecords ← request (EvHandleUsers true [currentUser])
                        (handleUsers op true [currentUser]);
  preferenceRecords ← request (EvHandlePreferences true preferences)
                              (handlePreferences op true preferences);
  let roles := collectRoles (UserProfile.roles me) teamMemberships in
  let rolesToLoad := Set_from roles in
  rolesRecords ← loadMeRoles client op rolesToLoad;
  models ← await (Promise_all
                    [teamRecords; teamMembershipRecords; myTeamRecords;
                     systemRecords; preferenceRecords; Resolved rolesRecords;
                     userRecords]);
  ret (op, concat models).

(** Lines 249-251: the one batch commit. *)
Definition loadMeCommit (op : ServerDataOperator)
    (flattenedModels : list Model) : Async unit :=
  if (0 <? length flattenedModels)%nat
  then call (EvBatchRecords flattenedModels) (batchRecords op flattenedModels)
  else ret tt.

(** A [try] block whose handler returns from the function: [Some r] is the
    value the handler returned, [None] means the block ran to its end. *)
Definition try_or_return {R} (m : Async unit) (h : Error → Async R)
  : Async (option R) :=
  try_catch (m;; ret None) (λ e, r ← h e; ret (Some r)).

Definition loadMe (env : Env) (serverUrl : string) (args : LoadMeArgs.t)
  : Async LoadMeResult.t :=
  match serverDatabases env !! serverUrl with
  | None =>
      ret {| LoadMeResult.error := Some (serverUrl +:+ " database not found");
             LoadMeResult.currentUser := None |}
  | Some _ =>
      match getClient env serverUrl with
      | Rejected error =>
          ret {| LoadMeResult.error := Some error;
                 LoadMeResult.currentUser := None |}
      | Resolved client =>
          auth ← try_catch
                   (currentUser ← loadMeAuth client args; ret (inr currentUser))
                   (λ e,
                      call (EvForceLogoutIfNecessary serverUrl e)
                           (forceLogoutIfNecessary env serverUrl e);;
                      ret (inl {| LoadMeResult.error := Some e;
                                  LoadMeResult.currentUser := None |}));
          match auth with
          | inl result => ret result
          | inr currentUser =>
              returned ← try_or_return
                ('(op, flattenedModels) ←
                   loadMePrepare env serverUrl client currentUser;
                 loadMeCommit op flattenedModels)
                (λ e, ret {| LoadMeResult.error := Some e;
                             LoadMeResult.currentUser := None |});
              match returned with
              | Some result => ret result
              | None => ret {| LoadMeResult.error := None;
                               LoadMeResult.currentUser := Some currentUser |}
              end
          end
      end
  end.

(** ** updateMe *)

Definition updateMe (env : Env) (serverUrl : string) (user : UserModel.t)
  : Async UpdateMeResult.t :=
  let database := database <$> (serverDatabases env !! serverUrl) in
  let operator := operator <$> (serverDatabases env !! serverUrl) in
  match database with
  | None =>
      ret {| UpdateMeResult.data := None;
             UpdateMeResult.error := Some (serverUrl +:+ " database not found") |}
  | Some _ =>
      match getClient env serverUrl with
      | Rejected error =>
          ret {| UpdateMeResult.data := None;
                 UpdateMeResult.error := Some error |}
      | Resolved client =>
          patched ← try_catch
                      (data ← call (EvPatchMe (UserModel._raw user))
                                   (patchMe client (UserModel._raw user));
                       ret (inr data))
                      (λ e,
                         fire (EvLogError e);;
                         ret (inl {| UpdateMeResult.data := None;
                                     UpdateMeResult.error := Some e |}));
          match patched with
          | inl result => ret result
          | inr data =>
              match data with
              | Some profile =>
                  match operator with
                  | Some _ => fire (EvHandleUsers false [profile])
                  | None => throw "TypeError: undefined is not an object"
                  end;;
                  let updatedRoles :=
                    split_space (UserProfile.roles (heap env profile)) in
                  if (0 <? length updatedRoles)%nat
                  then call (EvFetchRolesIfNeeded serverUrl updatedRoles)
                            (fetchRolesIfNeeded env serverUrl updatedRoles)
                  else ret tt
              | None => ret tt
              end;;
              ret {| UpdateMeResult.data := data;
                     UpdateMeResult.error := None |}
          end
      end
  end.

(** ** The ChannelInfo model *)

(** The class extends WatermelonDB's [Model] and declares each of its
    properties with a decorator (lines 39-57).  A decorator puts an
    accessor for the property on the class, so an assignment to the
    property in the constructor does not store a value in the object: it
    calls the setter of the accessor. *)
Module ChannelInfo.
(** The values the constructor assigns. *)
Inductive Value : Type :=
| VString (s : string)
| VNumber (n : Z)
| VObject (properties : list (string * string)).

(** What a record is made of: the raw columns [Model] keeps for it (none
    before it is given a raw record), whether it is inside [create] or
    [update], and the own properties of the object. *)
Record t := {
  _raw : option (gmap string Value);
  _isEditing : bool;
  own : gmap string Value;
}.

(** The accessors of the class: [@field(column)] reads and writes a raw
    column, [@relation(table, key)] gives the related record. *)
Inductive Accessor : Type :=
| Field (column : string)
| Relation (key : string).

(** Lines 39-57. *)
Definition accessors : gmap string Accessor :=
  list_to_map
    [ ("channelId", Field "channel_id");
      ("guestCount", Field "guest_count");
      ("header", Field "header");
      ("memberCount", Field "member_count");
      ("pinPostCount", Field "pin_post_count");
      ("purpose", Field "purpose");
      ("channel", Relation "channel_id") ].

(** What an assignment can throw. *)
Inductive Thrown : Type :=
| NotEditing (column : string)
| NoRawRecord (column : string)
| RelationAssigned (name : string).

(** How a statement completes. *)
Inductive Completion (A : Type) : Type :=
| Normal (a : A)
| Throw (e : Thrown).
Arguments Normal {A} a.
Arguments Throw {A} e.

Definition andThen {A B} (c : Completion A) (k : A → Completion B)
  : Completion B :=
  match c with
  | Normal a => k a
  | Throw e => Throw e
  end.

(** [Model]'s constructor takes the collection and the raw record of the
    new object; [super()] gives it neither, and a new object is not
    inside [create] or [update]. *)
Definition super : t := {| _raw := None; _isEditing := false; own := ∅ |}.

(** [Model._setRaw], the setter of a [@field]: writing a column is
    refused outside [create] and [update]. *)
Definition _setRaw (column : string) (v : Value) (this : t) : Completion t :=
  if _isEditing this then
    match _raw this with
    | Some raw =>
        Normal {| _raw := Some (<[column := v]> raw);
                  _isEditing := _isEditing this;
                  own := own this |}
    | None => Throw (NoRawRecord column)
    end
  else Throw (NotEditing column).

(** [Model._getRaw], the getter of a [@field]. *)
Definition _getRaw (column : string) (this : t) : option Value :=
  raw ← _raw this; raw !! column.

(** [this.name = v]: through the setter when the class has an accessor
    for the name (the setter of a relation always throws), as an own
    property otherwise. *)
Definition assign (name : string) (v : Value) (this : t) : Completion t :=
  match accessors !! name with
  | Some (Field column) => _setRaw column v this
  | Some (Relation _) => Throw (RelationAssigned name)
  | None =>
      Normal {| _raw := _raw this;
                _isEditing := _isEditing this;
                own := <[name := v]> (own this) |}
  end.

(** Lines 20-29. *)
Definition constructor : Completion t :=
  andThen (Normal super) (λ this,
  andThen (assign "channelId" (VString "") this) (λ this,
  andThen (assign "guestCount" (VNumber 0) this) (λ this,
  andThen (assign "header" (VString "") this) (λ this,
  andThen (assign "memberCount" (VNumber 0) this) (λ this,
  andThen (assign "pinPostCount" (VNumber 0) this) (λ this,
  andThen (assign "purpose" (VString "") this) (λ this,
  andThen (assign "channel" (VObject []) this) (λ this,
  Normal this)))))))).
End ChannelInfo.

(** ** What a trace shows *)

(** A write into the local store: a batch commit, or a handler called with
    [prepareRecordsOnly: false]. *)
Definition isWrite (ev : Event) : bool :=
  match ev with
  | EvBatchRecords _ => true
  | EvHandleUsers p _ | EvHandleTeam p _ | EvHandleTeamMemberships p _
  | EvHandleMyTeam p _ | EvHandleSystem p _ | EvHandlePreferences p _
  | EvHandleRole p _ => negb p
  | _ => false
  end.

(** Any call to the operator or to the staging helper. *)
Definition isStoreCall (ev : Event) : bool :=
  match ev with
  | EvBatchRecords _ | EvPrepareUsers _
  | EvHandleUsers _ _ | EvHandleTeam _ _ | EvHandleTeamMemberships _ _
  | EvHandleMyTeam _ _ | EvHandleSystem _ _ | EvHandlePreferences _ _
  | EvHandleRole _ _ => true
  | _ => false
  end.

(** The record lists given to [batchRecords], in order. *)
Definition committed (t : list Event) : list (list Model) :=
  omap (λ ev, match ev with EvBatchRecords ms => Some ms | _ => None end) t.

(** The user lists given to [prepareUsers], in order. *)
Definition stagedUsers (t : list Event) : list (list Ref) :=
  omap (λ ev, match ev with EvPrepareUsers us => Some us | _ => None end) t.

(** The lists given to [handleMyTeam], in order. *)
Definition handledMyTeams (t : list Event) : list (list MyTeam.t) :=
  omap (λ ev, match ev with EvHandleMyTeam _ ts => Some ts | _ => None end) t.

(** The name lists given to [getRolesByNames], in order. *)
Definition roleFetches (t : list Event) : list (list string) :=
  omap (λ ev, match ev with EvGetRolesByNames ns => Some ns | _ => None end) t.

(** Every event of the computation satisfies [P]. *)
Definition emits {A} (P : Event → Prop) (m : Async A) : Prop := Forall P m.1.

(** Every list given to [prepareUsers] holds only users that satisfy [Q]. *)
Definition stagesOnly (Q : Ref → Prop) (ev : Event) : Prop :=
  match ev with EvPrepareUsers us => Forall Q us | _ => True end.

(** The users that the fetch-only call for one channel returns: none when
    the entry of the channel carries an error. *)
Definition perChannelUsers (env : Env) (serverUrl : string)
    (excludeUserId : option string) (channelId : string) : list Ref :=
  match (fetchProfilesInChannel env serverUrl channelId excludeUserId true).2 with
  | Resolved r => default [] (ProfilesInChannelRequest.users r)
  | Rejected _ => []
  end.

(** The left join of C5, for one unread entry: the derived record carries
    the team identifier of the entry, and the role string of the first
    membership with that team identifier, or the empty string when there
    is none. *)
Definition myTeamJoins (teamMemberships : list TeamMembership.t)
    (unread : TeamUnread.t) (myTeam : MyTeam.t) : Prop :=
  let other (m : TeamMembership.t) :=
    TeamMembership.team_id m ≠ TeamUnread.team_id unread in
  MyTeam.id myTeam = TeamUnread.team_id unread ∧
  ((∃ before m after,
      teamMemberships = before ++ m :: after ∧
      Forall other before ∧
      TeamMembership.team_id m = TeamUnread.team_id unread ∧
      MyTeam.roles myTeam = TeamMembership.roles m)
   ∨ (Forall other teamMemberships ∧ MyTeam.roles myTeam = "")).

(** ** The claims that the code does not meet, as they are written *)

(** The claim of C2 as it is written: no returned user has the excluded
    identifier. *)
Definition returnedUsersExclude (env : Env) (serverUrl channelId : string)
    (ex : string) (fetchOnly : bool) : Prop :=
  ∀ r us u,
    (fetchProfilesInChannel env serverUrl channelId (Some ex) fetchOnly).2
      = Resolved r →
    ProfilesInChannelRequest.users r = Some us →
    u ∈ us → UserProfile.id (heap env u) ≠ ex.

(** The claim of C7 as it is written: a successful [updateMe] refreshes
    the roles when, and only when, the role string that came back differs
    from the one the user had. *)
Definition refreshesIffRolesChanged (env : Env) (serverUrl : string)
    (user : UserModel.t) : Prop :=
  ∀ t r profile,
    updateMe env serverUrl user = (t, Resolved r) →
    UpdateMeResult.data r = Some profile →
    let newRoles := UserProfile.roles (heap env profile) in
    (newRoles = UserModel.roles user →
       ∀ rs, EvFetchRolesIfNeeded serverUrl rs ∉ t) ∧
    (newRoles ≠ UserModel.roles user →
       EvFetchRolesIfNeeded serverUrl (split_space newRoles) ∈ t).



(** The entry of a channel whose fetch failed with [e]. *)
Definition errorEntry (e : Error) (channelId : string)
  : ProfilesInChannelRequest.t :=
  {| ProfilesInChannelRequest.users := None;
     ProfilesInChannelRequest.channelId := channelId;
     ProfilesInChannelRequest.error := Some e |}.

(** ** A sample environment

    One server, ["https://srv"], with a registered client and database;
    three profile objects on the heap.  The variants below differ in what
    is registered and in what the server answers. *)
Module Sample.
Definition url : string := "https://srv".

Definition profiles (r : Ref) : UserProfile.t :=
  match r with
  | 1%nat => {| UserProfile.id := "me"; UserProfile.roles := "system_user" |}
  | 2%nat => {| UserProfile.id := "u2"; UserProfile.roles := "system_user" |}
  | 3%nat => {| UserProfile.id := "u3"; UserProfile.roles := "" |}
  | _ => {| UserProfile.id := ""; UserProfile.roles := "" |}
  end.

Definition stored (table : string) (keys : list string) : list Model :=
  map (λ k, {| table := table; key := k |}) keys.

Definition op : ServerDataOperator :=
  {| handleUsers _ users :=
       Resolved (stored "User" (map (λ u, UserProfile.id (profiles u)) users));
     handleTeam _ teams := Resolved (stored "Team" (map Team.id teams));
     handleTeamMemberships _ ms :=
       Resolved (stored "TeamMembership" (map TeamMembership.team_id ms));
     handleMyTeam _ ts := Resolved (stored "MyTeam" (map MyTeam.id ts));
     handleSystem _ ss := Resolved (stored "System" (map IdValue.id ss));
     handlePreferences _ ps :=
       Resolved (stored "Preference" (map Preference.name ps));
     handleRole _ rs := Resolved (stored "Role" (map Role.name rs));
     batchRecords _ := Resolved tt |}.

Definition team_a : Team.t :=
  {| Team.id := "ta"; Team.display_name := "Team A" |}.
Definition member_a : TeamMembership.t :=
  {| TeamMembership.team_id := "ta"; TeamMembership.user_id := "me";
     TeamMembership.roles := "team_user team_admin" |}.
Definition unread_a : TeamUnread.t :=
  {| TeamUnread.team_id := "ta"; TeamUnread.msg_count := 2;
     TeamUnread.mention_count := 1 |}.
Definition unread_b : TeamUnread.t :=
  {| TeamUnread.team_id := "tb"; TeamUnread.msg_count := 0;
     TeamUnread.mention_count := 0 |}.

(** The client: the current user is object [me]; channel "town" lists
    objects 1 and 2, channel "dev" lists 2 and 3, and any other channel is
    refused. *)
Definition client (me : Ref) (config : Promise ClientConfig)
    (members : list TeamMembership.t) : Client :=
  {| attachDevice _ := Resolved tt;
     getMe := Resolved me;
     getProfilesInChannel ch :=
       if String.eqb ch "town" then Resolved [1; 2]%nat
       else if String.eqb ch "dev" then Resolved [2; 3]%nat
       else Rejected "channel not found";
     getMyTeams := Resolved [team_a];
     getMyTeamMembers := Resolved members;
     getMyTeamUnreads := Resolved [unread_a; unread_b];
     getMyPreferences := Resolved [];
     getClientConfigOld := config;
     getClientLicenseOld := Resolved [("IsLicensed", "false")];
     getRolesByNames _ := Resolved (Some []);
     patchMe raw := Resolved (Some 1%nat) |}.

Definition make (clients : gmap string Client)
    (dbs : gmap string ServerDatabase) : Env :=
  {| heap := profiles;
     clients := clients;
     serverDatabases := dbs;
     forceLogoutIfNecessary _ _ := Resolved tt;
     fetchRolesIfNeeded _ _ := Resolved tt;
     prepareUsers op users :=
       match users with
       | [] => None
       | _ :: _ => Some (handleUsers op true users)
       end;
     JSON_stringify kvs := String.concat "," (map fst kvs);
     SYSTEM_IDENTIFIERS :=
       {| CONFIG := "config"; LICENSE := "license";
          CURRENT_USER_ID := "currentUserId" |} |}.

Definition db : ServerDatabase := {| database := "srv.db"; operator := op |}.

Definition good_client : Client :=
  client 1%nat (Resolved [("Version", "6.0")]) [member_a].

(** Client and database registered. *)
Definition env : Env := make {[ url := good_client ]} {[ url := db ]}.
(** Client registered, no database. *)
Definition env_no_db : Env := make {[ url := good_client ]} ∅.
(** The configuration request is rejected. *)
Definition env_config_fails : Env :=
  make {[ url := client 1%nat (Rejected "config unavailable") [member_a] ]}
       {[ url := db ]}.
(** The current user (object 3) has an empty role string and no team. *)
Definition env_no_roles : Env :=
  make {[ url := client 3%nat (Resolved []) [] ]} {[ url := db ]}.
End Sample.

(** ** Further observations of a trace *)

(** The calls made to the operator and to the staging helper, in order. *)
Definition storeCalls (t : list Event) : list Event :=
  List.filter isStoreCall t.

(** The channels whose profiles were requested from the server, in order. *)
Definition requestedChannels (t : list Event) : list string :=
  omap (λ ev, match ev with
              | EvGetProfilesInChannel ch => Some ch
              | _ => None
              end) t.

(** The device tokens given to [attachDevice], in order. *)
Definition attachedDevices (t : list Event) : list string :=
  omap (λ ev, match ev with EvAttachDevice tok => Some tok | _ => None end) t.

(** The number of [getMe] requests. *)
Definition getMeRequests (t : list Event) : nat :=
  length (List.filter (λ ev, match ev with EvGetMe => true | _ => false end) t).

(** A string that holds a space. *)
Fixpoint hasSpace (s : string) : bool :=
  match s with
  | EmptyString => false
  | String c rest => Ascii.eqb c " "%char || hasSpace rest
  end.

(** [pieces.join(' ')] *)
Fixpoint join_space (pieces : list string) : string :=
  match pieces with
  | [] => ""
  | [piece] => piece
  | piece :: rest => piece +:+ " " +:+ join_space rest
  end.

(** The three system rows of lines 199-212. *)
Definition systemEntries (env : Env) (config : ClientConfig)
    (license : ClientLicense) (currentUserId : string) : list IdValue.t :=
  [ {| IdValue.id := CONFIG (SYSTEM_IDENTIFIERS env);
       IdValue.value := JSON_stringify env config |};
    {| IdValue.id := LICENSE (SYSTEM_IDENTIFIERS env);
       IdValue.value := JSON_stringify env license |};
    {| IdValue.id := CURRENT_USER_ID (SYSTEM_IDENTIFIERS env);
       IdValue.value := currentUserId |} ].

(** The requests and analytics calls that open the phase after the
    authentication (lines 153-166). *)
Definition loadMeOpening (env : Env) (serverUrl : string) (currentUser : Ref)
  : list Event :=
  [ EvAnalyticsCreate serverUrl;
    EvAnalyticsSetUserId (UserProfile.id (heap env currentUser));
    EvAnalyticsSetUserRoles (UserProfile.roles (heap env currentUser));
    EvGetMyTeams; EvGetMyTeamMembers; EvGetMyTeamUnreads;
    EvGetMyPreferences; EvGetClientConfigOld; EvGetClientLicenseOld ].

(** The unread flag and the mention count of a derived record, against
    the unread entry it comes from. *)
Definition myTeamCounts (unread : TeamUnread.t) (myTeam : MyTeam.t) : Prop :=
  (MyTeam.is_unread myTeam = true ↔ 0 < TeamUnread.msg_count unread) ∧
  MyTeam.mentions_count myTeam = TeamUnread.mention_count unread.

(** A role fetch is well formed when its name list is not empty, has no
    repeated name, and no name holds a space. *)
Definition wellFormedRoleFetch (ev : Event) : Prop :=
  match ev with
  | EvGetRolesByNames names =>
      names ≠ [] ∧ NoDup names ∧ Forall (λ n, hasSpace n = false) names
  | _ => True
  end.

(** A promise that was fulfilled. *)
Definition isResolved {A} (p : Promise A) : bool :=
  match p with Resolved _ => true | Rejected _ => false end.

(** The six requests of the join were all answered. *)
Definition allAnswered (client : Client) : bool :=
  isResolved (getMyTeams client) && isResolved (getMyTeamMembers client) &&
  isResolved (getMyTeamUnreads client) && isResolved (getMyPreferences client) &&
  isResolved (getClientConfigOld client) &&
  isResolved (getClientLicenseOld client).

(** How the device attachment of [loadMe] settles: at once when no token,
    or an empty one, was given. *)
Definition attachOutcome (client : Client) (args : LoadMeArgs.t)
  : Promise unit :=
  match LoadMeArgs.deviceToken args with
  | Some tok => if truthy tok then attachDevice client tok else Resolved tt
  | None => Resolved tt
  end.

(** ** Sample servers with failing collaborators *)
Module Faulty.
(** A client like the sample one, with its own answers for [getMe],
    [attachDevice] and [patchMe]. *)
Definition client (me : Promise Ref) (attach : Promise unit)
    (patch : Promise (option Ref)) : Client :=
  {| attachDevice _ := attach;
     getMe := me;
     getProfilesInChannel := getProfilesInChannel Sample.good_client;
     getMyTeams := getMyTeams Sample.good_client;
     getMyTeamMembers := getMyTeamMembers Sample.good_client;
     getMyTeamUnreads := getMyTeamUnreads Sample.good_client;
     getMyPreferences := getMyPreferences Sample.good_client;
     getClientConfigOld := getClientConfigOld Sample.good_client;
     getClientLicenseOld := getClientLicenseOld Sample.good_client;
     getRolesByNames := getRolesByNames Sample.good_client;
     patchMe _ := patch |}.

(** The sample operator, with its own answer for [batchRecords]. *)
Definition op (batch : Promise unit) : ServerDataOperator :=
  {| handleUsers := handleUsers Sample.op;
     handleTeam := handleTeam Sample.op;
     handleTeamMemberships := handleTeamMemberships Sample.op;
     handleMyTeam := handleMyTeam Sample.op;
     handleSystem := handleSystem Sample.op;
     handlePreferences := handlePreferences Sample.op;
     handleRole := handleRole Sample.op;
     batchRecords _ := batch |}.

(** The sample environment, with one client, one operator, and its own
    answers for the forced-logout check and the role refresh. *)
Definition make (c : Client) (o : ServerDataOperator)
    (logout refresh : Promise unit) : Env :=
  {| heap := Sample.profiles;
     clients := {[ Sample.url := c ]};
     serverDatabases :=
       {[ Sample.url := {| database := "srv.db"; operator := o |} ]};
     forceLogoutIfNecessary _ _ := logout;
     fetchRolesIfNeeded _ _ := refresh;
     prepareUsers := prepareUsers Sample.env;
     JSON_stringify := JSON_stringify Sample.env;
     SYSTEM_IDENTIFIERS := SYSTEM_IDENTIFIERS Sample.env |}.

(** The session has expired: [getMe] is rejected. *)
Definition expired : Client :=
  client (Rejected "session expired") (Resolved tt) (Resolved (Some 1%nat)).
Definition env_expired : Env :=
  make expired Sample.op (Resolved tt) (Resolved tt).
(** The same, and the forced-logout check is rejected too. *)
Definition env_logout_fails : Env :=
  make expired Sample.op (Rejected "logout failed") (Resolved tt).
(** The device cannot be attached. *)
Definition no_device : Client :=
  client (Resolved 1%nat) (Rejected "device refused") (Resolved (Some 1%nat)).
Definition env_no_device : Env :=
  make no_device Sample.op (Resolved tt) (Resolved tt).
(** The store refuses the batch. *)
Definition env_disk_full : Env :=
  make Sample.good_client (op (Rejected "disk full")) (Resolved tt)
       (Resolved tt).
(** The patch is rejected. *)
Definition env_patch_fails : Env :=
  make (client (Resolved 1%nat) (Resolved tt) (Rejected "patch refused"))
       Sample.op (Resolved tt) (Resolved tt).
(** The patch answers with no profile. *)
Definition env_patch_empty : Env :=
  make (client (Resolved 1%nat) (Resolved tt) (Resolved None))
       Sample.op (Resolved tt) (Resolved tt).
(** The role refresh is rejected. *)
Definition env_refresh_fails : Env :=
  make Sample.good_client Sample.op (Resolved tt) (Rejected "roles refused").
End Faulty.

(** * Properties *)

(** The source functions are unfolded by name only, never by [simpl]. *)
Arguments stageAndCommit : simpl never.
Arguments fetchMe : simpl never.
Arguments fetchProfilesInChannel : simpl never.
Arguments fetchProfilesPerChannels : simpl never.
Arguments loadMeAuth : simpl never.
Arguments loadMeRoles : simpl never.
Arguments loadMePrepare : simpl never.
Arguments loadMeCommit : simpl never.
Arguments loadMe : simpl never.
Arguments updateMe : simpl never.
Arguments Promise_all : simpl never.

(** ** Traces and outcomes of composed computations *)

Section AsyncLaws.
Context {A B : Type}.
Implicit Types (m : Async A) (k : A → Async B) (h : Error → Async A).

Lemma bind_trace m k :
  (m ≫= k).1 =
    m.1 ++ match m.2 with Resolved a => (k a).1 | Rejected _ => [] end.
Proof.
  unfold mbind, Async_bind, bind. destruct m as [t [a|e]]; simpl.
  - by destruct (k a).
  - by rewrite app_nil_r.
Qed.

Lemma bind_outcome m k :
  (m ≫= k).2 =
    match m.2 with Resolved a => (k a).2 | Rejected e => Rejected e end.
Proof.
  unfold mbind, Async_bind, bind. destruct m as [t [a|e]]; simpl; [|done].
  by destruct (k a).
Qed.

Lemma try_catch_trace m h :
  (try_catch m h).1 =
    m.1 ++ match m.2 with Resolved _ => [] | Rejected e => (h e).1 end.
Proof.
  unfold try_catch. destruct m as [t [a|e]]; simpl.
  - by rewrite app_nil_r.
  - by destruct (h e).
Qed.

Lemma try_catch_outcome m h :
  (try_catch m h).2 =
    match m.2 with Resolved a => Resolved a | Rejected e => (h e).2 end.
Proof.
  unfold try_catch. destruct m as [t [a|e]]; simpl; [done|].
  by destruct (h e).
Qed.
End AsyncLaws.

(** Splits on the way the first pending step settles. *)
Ltac case_outcome :=
  match goal with
  | |- context [match snd ?m with Resolved _ => _ | Rejected _ => _ end] =>
      let H := fresh "Hsettled" in destruct (snd m) eqn:H
  end.

Lemma call_outcome {A} ev (p : Promise A) : (call ev p).2 = p.
Proof. reflexivity. Qed.

(** ** Events of a computation *)

Section Emits.
Context (P : Event → Prop).

Lemma emits_ret {A} (a : A) : emits P (mret a).
Proof. constructor. Qed.

Lemma emits_throw {A} (e : Error) : emits P (@throw A e).
Proof. constructor. Qed.

Lemma emits_await {A} (p : Promise A) : emits P (await p).
Proof. constructor. Qed.

Lemma emits_fire ev : P ev → emits P (fire ev).
Proof. intros; repeat constructor; done. Qed.

Lemma emits_request {A} ev (a : A) : P ev → emits P (request ev a).
Proof. intros; repeat constructor; done. Qed.

Lemma emits_bind {A B} (m : Async A) (k : A → Async B) :
  emits P m → (∀ a, emits P (k a)) → emits P (m ≫= k).
Proof.
  unfold emits, mbind, Async_bind, bind.
  destruct m as [t [a|e]]; simpl; intros Hm Hk; [|done].
  specialize (Hk a). destruct (k a) as [t' r]; simpl in *.
  by apply Forall_app.
Qed.

Lemma emits_call {A} ev (p : Promise A) : P ev → emits P (call ev p).
Proof.
  intros. apply emits_bind; [by apply emits_request|].
  intros; apply emits_await.
Qed.

Lemma emits_try_catch {A} (m : Async A) (h : Error → Async A) :
  emits P m → (∀ e, emits P (h e)) → emits P (try_catch m h).
Proof.
  unfold emits, try_catch.
  destruct m as [t [a|e]]; simpl; intros Hm Hh; [done|].
  specialize (Hh e). destruct (h e) as [t' r]; simpl in *.
  by apply Forall_app.
Qed.

Lemma emits_Async_all {A} (calls : list (Started A)) :
  Forall (λ s, emits P (finish s)) calls → emits P (Async_all calls).
Proof.
  unfold emits, Async_all, finish; simpl. intros Hcalls.
  apply Forall_app. split; apply Forall_concat, Forall_fmap;
    (eapply Forall_impl; [exact Hcalls|]);
    intros s [Hnow Hlater]%Forall_app; done.
Qed.
End Emits.

(** Breaks a computation into its steps, and leaves the calls. *)
Ltac emits_steps :=
  repeat first
    [ apply emits_ret | apply emits_throw | apply emits_await
    | apply emits_bind; [|intros]
    | apply emits_try_catch; [|intros]
    | apply emits_fire | apply emits_request | apply emits_call
    | progress case_match ].

(** ** Sets *)

Section JsSetFacts.
Context {A : Type} `{EqDecision A}.
Implicit Types (s xs : list A) (x : A).

Lemma elem_of_Set_add s x y : y ∈ Set_add s x ↔ y ∈ s ∨ y = x.
Proof.
  unfold Set_add. case_decide as Hin.
  - split; [by left|]. intros [?| ->]; done.
  - rewrite elem_of_app, list_elem_of_singleton. done.
Qed.

Lemma NoDup_Set_add s x : NoDup s → NoDup (Set_add s x).
Proof.
  intros Hs. unfold Set_add. case_decide as Hin; [done|].
  apply NoDup_app. split_and!; [done| |apply NoDup_singleton].
  intros y Hy ->%list_elem_of_singleton. done.
Qed.

Lemma elem_of_foldl_Set_add xs s y :
  y ∈ foldl Set_add s xs ↔ y ∈ s ∨ y ∈ xs.
Proof.
  revert s. induction xs as [|x xs IH]; intros s; simpl.
  - rewrite elem_of_nil. tauto.
  - rewrite IH, elem_of_Set_add, elem_of_cons. tauto.
Qed.

Lemma NoDup_foldl_Set_add xs s : NoDup s → NoDup (foldl Set_add s xs).
Proof.
  revert s. induction xs as [|x xs IH]; intros s Hs; simpl; [done|].
  by apply IH, NoDup_Set_add.
Qed.

Lemma elem_of_Set_from xs y : y ∈ Set_from xs ↔ y ∈ xs.
Proof.
  unfold Set_from. rewrite elem_of_foldl_Set_add, elem_of_nil. tauto.
Qed.

Lemma NoDup_Set_from xs : NoDup (Set_from xs).
Proof. apply NoDup_foldl_Set_add, NoDup_nil_2. Qed.
End JsSetFacts.

(** ** ChannelInfo *)

(** An assignment to a declared field of a record that is not inside
    [create] or [update] throws, and stores nothing. *)
Lemma ChannelInfo_assign_field_outside_edit name column v this :
  ChannelInfo.accessors !! name = Some (ChannelInfo.Field column) →
  ChannelInfo._isEditing this = false →
  ChannelInfo.assign name v this
    = ChannelInfo.Throw (ChannelInfo.NotEditing column).
Proof.
  intros Hname Hedit. unfold ChannelInfo.assign, ChannelInfo._setRaw.
  by rewrite Hname, Hedit.
Qed.

(** C10, at the only input the constructor has.  [new ChannelInfo()]
    does not give a record with the six default values: the first
    assignment, [this.channelId = ''], goes to the setter of the field
    declared at line 39, which refuses to write the column [channel_id]
    of a record that is not inside [create] or [update]; the constructor
    throws there, and none of the six values is ever stored. *)
Theorem ChannelInfo_constructor_throws :
  ChannelInfo.accessors !! "channelId"
    = Some (ChannelInfo.Field "channel_id") ∧
  ChannelInfo._getRaw "channel_id" ChannelInfo.super = None ∧
  ChannelInfo.constructor
    = ChannelInfo.Throw (ChannelInfo.NotEditing "channel_id").
Proof.
  split_and!; [by vm_compute|done|].
  unfold ChannelInfo.constructor, ChannelInfo.andThen.
  by rewrite (ChannelInfo_assign_field_outside_edit
                "channelId" "channel_id") by by vm_compute.
Qed.

(** ** fetchMe without a database *)

(** C9. When the remote call succeeds, the call is not fetch-only and no
    database is registered for the server, [fetchMe] returns the user with
    no error, and its only call is the remote one: nothing is written. *)
Theorem fetchMe_without_database env serverUrl client user :
  clients env !! serverUrl = Some client →
  getMe client = Resolved user →
  serverDatabases env !! serverUrl = None →
  fetchMe env serverUrl false =
    ([EvGetMe],
     Resolved {| MyUserRequest.user := Some user;
                 MyUserRequest.error := None |}).
Proof.
  intros Hclient Hme Hdb. unfold fetchMe, getClient.
  rewrite Hclient; simpl. rewrite Hme, Hdb. reflexivity.
Qed.

Lemma fetchMe_without_database_witness :
  fetchMe Sample.env_no_db Sample.url false =
    ([EvGetMe],
     Resolved {| MyUserRequest.user := Some 1%nat;
                 MyUserRequest.error := None |}).
Proof.
  apply (fetchMe_without_database Sample.env_no_db Sample.url
           Sample.good_client 1%nat); reflexivity.
Defined.

(** ** The fan-out of fetchProfilesPerChannels *)

(** A [try] block that opens with an awaited call, cut at the wait. *)
Lemma try_catch_call_cut {A B} ev (p : Promise A) (k : A → Async B)
    (h : Error → Async B) :
  finish ([ev], try_catch (await p ≫= k) h) = try_catch (call ev p ≫= k) h.
Proof.
  unfold finish, call, request, await, try_catch, mbind, Async_bind, bind.
  destruct p as [a|e]; simpl.
  - destruct (k a) as [t [b|e]]; simpl; [done|]. by destruct (h e).
  - by destruct (h e).
Qed.

(** The function cut at its first wait is the function. *)
Lemma fetchProfilesInChannel_finish env serverUrl channelId ex fetchOnly :
  finish (fetchProfilesInChannelStart env serverUrl channelId ex fetchOnly) =
    fetchProfilesInChannel env serverUrl channelId ex fetchOnly.
Proof.
  unfold fetchProfilesInChannelStart, fetchProfilesInChannel.
  destruct (getClient env serverUrl) as [client|e]; [|done].
  apply try_catch_call_cut.
Qed.

Lemma fanOut_emits (P : Event → Prop) env serverUrl ex
    (channelIds : list string) :
  (∀ ch, emits P (fetchProfilesInChannel env serverUrl ch ex true)) →
  emits P (Async_all
             (map (λ id, fetchProfilesInChannelStart env serverUrl id ex true)
                  channelIds)).
Proof.
  intros Hall. apply emits_Async_all, Forall_fmap, Forall_forall.
  intros ch _. unfold compose. rewrite fetchProfilesInChannel_finish.
  apply Hall.
Qed.

(** ** Fetch-only calls *)

Lemma fetchProfilesInChannel_fetchOnly_no_write env serverUrl channelId ex :
  emits (λ ev, isWrite ev = false)
        (fetchProfilesInChannel env serverUrl channelId ex true).
Proof. unfold fetchProfilesInChannel. emits_steps; reflexivity. Qed.

(** Without [fetchOnly], and with a database, [fetchMe] does write. *)
Example fetchMe_writes_when_asked :
  (fetchMe Sample.env Sample.url false).1 = [EvGetMe; EvHandleUsers false [1%nat]].
Proof. reflexivity. Qed.

(** C3. With [fetchOnly = true], none of [fetchMe],
    [fetchProfilesInChannel] and [fetchProfilesPerChannels] calls
    [batchRecords] or a handler that writes at once. *)
Theorem fetchOnly_never_writes env serverUrl channelId channelIds ex :
  emits (λ ev, isWrite ev = false) (fetchMe env serverUrl true) ∧
  emits (λ ev, isWrite ev = false)
        (fetchProfilesInChannel env serverUrl channelId ex true) ∧
  emits (λ ev, isWrite ev = false)
        (fetchProfilesPerChannels env serverUrl channelIds ex true).
Proof.
  split_and!.
  - unfold fetchMe. emits_steps; reflexivity.
  - apply fetchProfilesInChannel_fetchOnly_no_write.
  - unfold fetchProfilesPerChannels. emits_steps.
    apply fanOut_emits. intros id.
    apply fetchProfilesInChannel_fetchOnly_no_write.
Qed.

(** ** The excluded user *)

Lemma Forall_filter_notExcluded env (ex : string) (us : list Ref) :
  Forall (λ u, UserProfile.id (heap env u) ≠ ex)
         (filter (notExcluded env (Some ex)) us).
Proof.
  apply Forall_forall. intros u [Hu _]%list_elem_of_filter.
  unfold notExcluded in Hu. congruence.
Qed.

(** C2, refuted as written: channel "town" of the sample server lists the
    caller (object 1, identifier "me"), and the returned list still holds
    that object when "me" is excluded. *)
Lemma fetchProfilesInChannel_returns_excluded :
  ¬ returnedUsersExclude Sample.env Sample.url "town" "me" false.
Proof.
  intros H.
  apply (H {| ProfilesInChannelRequest.users := Some [1; 2]%nat;
              ProfilesInChannelRequest.channelId := "town";
              ProfilesInChannelRequest.error := None |}
           [1; 2]%nat 1%nat); [by vm_compute|done|by left|done].
Qed.

(** C2, amended.  With [excludeUserId] supplied, no list that
    [fetchProfilesInChannel] stages for the upsert holds a profile with
    that identifier; the returned list is the fetched list without
    repeated objects, the excluded user included when the server listed
    it. *)
Theorem fetchProfilesInChannel_stages_without_excluded
    env serverUrl channelId (ex : string) fetchOnly :
  let run := fetchProfilesInChannel env serverUrl channelId (Some ex) fetchOnly in
  emits (stagesOnly (λ u, UserProfile.id (heap env u) ≠ ex)) run ∧
  ∀ r us,
    run.2 = Resolved r → ProfilesInChannelRequest.users r = Some us →
    ∃ client fetched,
      clients env !! serverUrl = Some client ∧
      getProfilesInChannel client channelId = Resolved fetched ∧
      NoDup us ∧ ∀ u, u ∈ us ↔ u ∈ fetched.
Proof.
  cbv zeta. split.
  - unfold fetchProfilesInChannel. emits_steps; try exact I.
    apply Forall_filter_notExcluded.
  - unfold fetchProfilesInChannel, getClient. intros r us.
    destruct (clients env !! serverUrl) as [client|] eqn:Hc;
      [|intros [= <-]; done].
    rewrite try_catch_outcome, bind_outcome, call_outcome.
    destruct (getProfilesInChannel client channelId) as [fetched|e] eqn:Hf;
      [|intros [= <-]; done].
    rewrite bind_outcome. case_outcome; simpl; [|intros [= <-]; done].
    intros [= <-] [= <-]. exists client, fetched.
    split_and!; [done..|apply NoDup_Set_from|apply elem_of_Set_from].
Qed.

Lemma fetchProfilesInChannel_stages_without_excluded_witness :
  emits (stagesOnly (λ u, UserProfile.id (heap Sample.env u) ≠ "me"))
        (fetchProfilesInChannel Sample.env Sample.url "town" (Some "me") false).
Proof.
  apply (fetchProfilesInChannel_stages_without_excluded
           Sample.env Sample.url "town" "me" false).
Defined.

(** ** The combined upsert of fetchProfilesPerChannels *)

Lemma no_store_call_observations (t : list Event) :
  Forall (λ ev, isStoreCall ev = false) t →
  stagedUsers t = [] ∧ committed t = [].
Proof.
  unfold stagedUsers, committed.
  induction 1 as [|ev t Hev _ [IH1 IH2]]; [done|].
  destruct ev; simpl in *; try done.
Qed.

Lemma fetchProfilesInChannel_fetchOnly_no_store_call env serverUrl ch ex :
  emits (λ ev, isStoreCall ev = false)
        (fetchProfilesInChannel env serverUrl ch ex true).
Proof. unfold fetchProfilesInChannel. emits_steps; reflexivity. Qed.

(** The inner call never rejects: what goes wrong is put into the entry. *)
Lemma fetchProfilesInChannel_fetchOnly_resolves env serverUrl ch ex :
  ∃ r, (fetchProfilesInChannel env serverUrl ch ex true).2 = Resolved r.
Proof.
  unfold fetchProfilesInChannel. destruct (getClient env serverUrl); [|by eexists].
  rewrite try_catch_outcome, bind_outcome, call_outcome.
  destruct (getProfilesInChannel _ _); by eexists.
Qed.

Lemma Promise_all_cons {A} (p : Promise A) (ps : list (Promise A)) :
  Promise_all (p :: ps) =
    match p, Promise_all ps with
    | Resolved a, Resolved l => Resolved (a :: l)
    | Rejected e, _ => Rejected e
    | Resolved _, Rejected e => Rejected e
    end.
Proof. reflexivity. Qed.

Lemma Async_all_resolved {A} (calls : list (Started A)) (l : list A) :
  Forall2 (λ s a, (finish s).2 = Resolved a) calls l →
  (Async_all calls).2 = Resolved l.
Proof.
  unfold Async_all; cbn [snd].
  induction 1 as [|[now [later p]] a calls l Ha _ IH]; [done|].
  cbn [map]. rewrite Promise_all_cons, IH.
  unfold finish in Ha. simpl in *. by rewrite Ha.
Qed.

Lemma fanOut_resolved env serverUrl ex (channelIds : list string) data :
  Forall2 (λ ch item,
             (fetchProfilesInChannel env serverUrl ch ex true).2
               = Resolved item) channelIds data →
  (Async_all
     (map (λ id, fetchProfilesInChannelStart env serverUrl id ex true)
          channelIds)).2 = Resolved data.
Proof.
  intros Hdata. apply Async_all_resolved, Forall2_fmap_l.
  eapply Forall2_impl; [exact Hdata|]. intros ch item Hitem.
  unfold compose. by rewrite fetchProfilesInChannel_finish.
Qed.

Lemma perChannel_entries env serverUrl ex (channelIds : list string) :
  ∃ data,
    Forall2 (λ ch item,
               (fetchProfilesInChannel env serverUrl ch ex true).2
                 = Resolved item) channelIds data.
Proof.
  induction channelIds as [|ch chs [data IH]]; [by exists []|].
  destruct (fetchProfilesInChannel_fetchOnly_resolves env serverUrl ch ex)
    as [r Hr].
  exists (r :: data). by constructor.
Qed.

Lemma stageAndCommit_trace env op users :
  (stageAndCommit env op users).1 =
    EvPrepareUsers users ::
      match prepareUsers env op users with
      | Some (Resolved (m :: ms)) => [EvBatchRecords (m :: ms)]
      | _ => []
      end.
Proof.
  unfold stageAndCommit.
  destruct (prepareUsers env op users) as [[[|m ms]|e]|]; reflexivity.
Qed.

Section CollectUsers.
Implicit Types (data : list ProfilesInChannelRequest.t) (acc : list Ref).

Lemma elem_of_collectStep acc item u :
  u ∈ collectStep acc item ↔
    u ∈ acc ∨ u ∈ default [] (ProfilesInChannelRequest.users item).
Proof.
  unfold collectStep.
  destruct (ProfilesInChannelRequest.users item) as [[|v vs]|];
    simpl; rewrite ?elem_of_nil; [tauto| |tauto].
  apply (elem_of_foldl_Set_add (v :: vs)).
Qed.

Lemma NoDup_collectStep acc item :
  NoDup acc → NoDup (collectStep acc item).
Proof.
  intros Hacc. unfold collectStep.
  destruct (ProfilesInChannelRequest.users item) as [[|v vs]|]; [done| |done].
  by apply (NoDup_foldl_Set_add (v :: vs)).
Qed.

Lemma elem_of_foldl_collect data acc u :
  u ∈ foldl collectStep acc data ↔
    u ∈ acc ∨
    ∃ item, item ∈ data ∧
            u ∈ default [] (ProfilesInChannelRequest.users item).
Proof.
  revert acc. induction data as [|item data IH]; intros acc; simpl.
  - split; [by left|]. intros [?|(item & []%elem_of_nil & _)]; done.
  - rewrite IH, elem_of_collectStep. split.
    + intros [[?|?]|(it & ? & ?)]; [by left| |].
      * right. exists item. split; [left|done].
      * right. exists it. split; [by right|done].
    + intros [?|(it & [->|?]%elem_of_cons & ?)]; [by left; left| |].
      * by left; right.
      * right. by exists it.
Qed.

Lemma NoDup_foldl_collect data acc :
  NoDup acc → NoDup (foldl collectStep acc data).
Proof.
  revert acc. induction data as [|item data IH]; intros acc Hacc; simpl;
    [done|]. by apply IH, NoDup_collectStep.
Qed.

Lemma elem_of_collectUsers data u :
  u ∈ collectUsers data ↔
    ∃ item, item ∈ data ∧
            u ∈ default [] (ProfilesInChannelRequest.users item).
Proof.
  unfold collectUsers. rewrite elem_of_foldl_collect, elem_of_nil.
  tauto.
Qed.

Lemma NoDup_collectUsers data : NoDup (collectUsers data).
Proof. apply NoDup_foldl_collect, NoDup_nil_2. Qed.
End CollectUsers.

(** C4.  With a database registered and [fetchOnly = false],
    [fetchProfilesPerChannels] stages one list of users for its combined
    upsert.  The list has no repeated profile object, and it holds exactly
    the objects that some per-channel fetch returned and whose identifier
    is not the excluded one; what is committed is what [prepareUsers]
    made of that list, in one batch.  A channel whose entry carries an
    error adds nothing and takes nothing away: the returned data has the
    entry of every channel, as its own fetch produced it. *)
Theorem fetchProfilesPerChannels_commits_union
    env serverUrl channelIds ex sd :
  serverDatabases env !! serverUrl = Some sd →
  let run := fetchProfilesPerChannels env serverUrl channelIds ex false in
  ∃ staged,
    stagedUsers run.1 = [staged] ∧
    NoDup staged ∧
    (∀ u, u ∈ staged ↔
            (∃ ch, ch ∈ channelIds ∧
                   u ∈ perChannelUsers env serverUrl ex ch) ∧
            notExcluded env ex u) ∧
    committed run.1 =
      match prepareUsers env (operator sd) staged with
      | Some (Resolved (m :: ms)) => [m :: ms]
      | _ => []
      end ∧
    ∃ data,
      Forall2 (λ ch item,
                 (fetchProfilesInChannel env serverUrl ch ex true).2
                   = Resolved item) channelIds data ∧
      run.2 =
        match (stageAndCommit env (operator sd) staged).2 with
        | Resolved _ =>
            Resolved {| ProfilesPerChannelRequest.data := Some data;
                        ProfilesPerChannelRequest.error := None |}
        | Rejected e =>
            Resolved {| ProfilesPerChannelRequest.data := None;
                        ProfilesPerChannelRequest.error := Some e |}
        end.
Proof.
  intros Hdb. cbv zeta.
  destruct (perChannel_entries env serverUrl ex channelIds) as [data Hdata].
  set (reqs := map (λ id, fetchProfilesInChannelStart env serverUrl id ex
                            true) channelIds).
  assert (Hall : (Async_all reqs).2 = Resolved data).
  { by apply fanOut_resolved. }
  assert (Hquiet : Forall (λ ev, isStoreCall ev = false) (Async_all reqs).1).
  { apply fanOut_emits. intros ch.
    apply fetchProfilesInChannel_fetchOnly_no_store_call. }
  apply no_store_call_observations in Hquiet as [Hst Hco].
  set (staged := filter (notExcluded env ex) (collectUsers data)).
  assert (Htrace :
    (fetchProfilesPerChannels env serverUrl channelIds ex false).1 =
      (Async_all reqs).1 ++ (stageAndCommit env (operator sd) staged).1).
  { unfold fetchProfilesPerChannels. fold reqs.
    rewrite try_catch_trace, bind_trace, bind_outcome, Hall, Hdb.
    fold staged.
    rewrite (bind_trace (stageAndCommit _ _ _)),
            (bind_outcome (stageAndCommit _ _ _)).
    destruct (stageAndCommit env (operator sd) staged).2;
      simpl; by rewrite ?app_nil_r. }
  assert (Hout :
    (fetchProfilesPerChannels env serverUrl channelIds ex false).2 =
      match (stageAndCommit env (operator sd) staged).2 with
      | Resolved _ =>
          Resolved {| ProfilesPerChannelRequest.data := Some data;
                      ProfilesPerChannelRequest.error := None |}
      | Rejected e =>
          Resolved {| ProfilesPerChannelRequest.data := None;
                      ProfilesPerChannelRequest.error := Some e |}
      end).
  { unfold fetchProfilesPerChannels. fold reqs.
    rewrite try_catch_outcome, bind_outcome, Hall, Hdb. fold staged.
    rewrite (bind_outcome (stageAndCommit _ _ _)).
    destruct (stageAndCommit env (operator sd) staged).2; reflexivity. }
  exists staged. rewrite Hout, Htrace, stageAndCommit_trace.
  unfold stagedUsers, committed in *. rewrite !omap_app, Hst, Hco. simpl.
  split_and!.
  - by destruct (prepareUsers env (operator sd) staged) as [[[|m ms]|e]|].
  - apply NoDup_filter, NoDup_collectUsers.
  - intros u. unfold staged.
    rewrite list_elem_of_filter, elem_of_collectUsers. split.
    + intros [Hex (item & Hitem & Hu)]. split; [|done].
      apply list_elem_of_lookup in Hitem as [i Hi].
      destruct (Forall2_lookup_r _ _ _ _ _ Hdata Hi) as (ch & Hch & Hrun).
      exists ch. split; [by eapply list_elem_of_lookup_2|].
      unfold perChannelUsers. by rewrite Hrun.
    + intros [(ch & Hch & Hu) Hex]. split; [done|].
      apply list_elem_of_lookup in Hch as [i Hi].
      destruct (Forall2_lookup_l _ _ _ _ _ Hdata Hi) as (item & Hitem & Hrun).
      exists item. split; [by eapply list_elem_of_lookup_2|].
      unfold perChannelUsers in Hu. by rewrite Hrun in Hu.
  - by destruct (prepareUsers env (operator sd) staged) as [[[|m ms]|e]|].
  - by exists data.
Qed.

Lemma fetchProfilesPerChannels_commits_union_witness :
  ∃ staged,
    stagedUsers (fetchProfilesPerChannels Sample.env Sample.url
                   ["town"; "nope"; "dev"] (Some "me") false).1 = [staged] ∧
    staged = [2; 3]%nat.
Proof.
  destruct (fetchProfilesPerChannels_commits_union Sample.env Sample.url
              ["town"; "nope"; "dev"] (Some "me") Sample.db)
    as (staged & Hstaged & _); [reflexivity|].
  exists staged. split; [exact Hstaged|].
  vm_compute in Hstaged. congruence.
Defined.

(** ** loadMe *)

Lemma loadMeRoles_emits (P : Event → Prop) client op rolesToLoad :
  (∀ ns, P (EvGetRolesByNames ns)) → (∀ rs, P (EvHandleRole true rs)) →
  emits P (loadMeRoles client op rolesToLoad).
Proof. intros Hf Hh. unfold loadMeRoles. emits_steps; done. Qed.

Lemma handledMyTeams_none (t : list Event) :
  Forall (λ ev, match ev with EvHandleMyTeam _ _ => False | _ => True end) t →
  handledMyTeams t = [].
Proof.
  unfold handledMyTeams. induction 1 as [|ev t Hev _ IH]; [done|].
  by destruct ev.
Qed.

(** When the preparation succeeds, [handleMyTeam] was called once, with
    the list derived from the two answers of the server. *)
Lemma loadMePrepare_myTeams env serverUrl client currentUser t op ms :
  loadMePrepare env serverUrl client currentUser = (t, Resolved (op, ms)) →
  ∃ members unreads,
    getMyTeamMembers client = Resolved members ∧
    getMyTeamUnreads client = Resolved unreads ∧
    handledMyTeams t = [map (myTeamOf members) unreads].
Proof.
  unfold loadMePrepare.
  destruct (getMyTeams client) as [teams|?] eqn:Hteams; [|done].
  destruct (getMyTeamMembers client) as [members|?] eqn:Hmembers; [|done].
  destruct (getMyTeamUnreads client) as [unreads|?] eqn:Hunreads; [|done].
  destruct (getMyPreferences client) as [preferences|?]; [|done].
  destruct (getClientConfigOld client) as [config|?]; [|done].
  destruct (getClientLicenseOld client) as [license|?]; [|done].
  destruct (serverDatabases env !! serverUrl) as [sd|]; [|done].
  cbn. intros [= <- _]. exists members, unreads. split_and!; [done..|].
  unfold handledMyTeams; simpl. f_equal.
  apply handledMyTeams_none, emits_bind.
  - by apply loadMeRoles_emits.
  - intros rolesRecords. case_match; constructor.
Qed.

(** [loadMe] by phases, once the database and the client are resolved:
    the authentication, the preparation, the commit. *)
Lemma loadMe_phases env serverUrl args sd client :
  serverDatabases env !! serverUrl = Some sd →
  clients env !! serverUrl = Some client →
  loadMe env serverUrl args =
    match loadMeAuth client args with
    | (t0, Rejected e) =>
        (t0 ++ [EvForceLogoutIfNecessary serverUrl e],
         match forceLogoutIfNecessary env serverUrl e with
         | Resolved _ =>
             Resolved {| LoadMeResult.error := Some e;
                         LoadMeResult.currentUser := None |}
         | Rejected e' => Rejected e'
         end)
    | (t0, Resolved currentUser) =>
        match loadMePrepare env serverUrl client currentUser with
        | (t1, Rejected e) =>
            (t0 ++ t1,
             Resolved {| LoadMeResult.error := Some e;
                         LoadMeResult.currentUser := None |})
        | (t1, Resolved (op, ms)) =>
            match loadMeCommit op ms with
            | (t2, Resolved _) =>
                (t0 ++ t1 ++ t2,
                 Resolved {| LoadMeResult.error := None;
                             LoadMeResult.currentUser := Some currentUser |})
            | (t2, Rejected e) =>
                (t0 ++ t1 ++ t2,
                 Resolved {| LoadMeResult.error := Some e;
                             LoadMeResult.currentUser := None |})
            end
        end
    end.
Proof.
  intros Hdb Hclient. unfold loadMe, getClient. rewrite Hdb, Hclient.
  destruct (loadMeAuth client args) as [t0 [currentUser|e]]; cbn.
  - destruct (loadMePrepare env serverUrl client currentUser)
      as [t1 [[op ms]|e]]; cbn.
    + destruct (loadMeCommit op ms) as [t2 [[]|e]]; cbn;
        by rewrite ?app_nil_r, ?app_assoc.
    + by rewrite ?app_nil_r.
  - destruct (forceLogoutIfNecessary env serverUrl e); cbn;
      by rewrite ?app_nil_r.
Qed.

Lemma loadMeAuth_emits (P : Event → Prop) client args :
  (∀ tok, P (EvAttachDevice tok)) → P EvGetMe →
  emits P (loadMeAuth client args).
Proof. intros Ha Hg. unfold loadMeAuth. emits_steps; done. Qed.

Lemma loadMeCommit_emits (P : Event → Prop) op ms :
  (∀ ms, P (EvBatchRecords ms)) → emits P (loadMeCommit op ms).
Proof. intros Hb. unfold loadMeCommit. emits_steps; done. Qed.

(** Nothing is written while the records are prepared: every handler is
    called with [prepareRecordsOnly: true], and [batchRecords] not at
    all. *)
Lemma loadMePrepare_no_write env serverUrl client currentUser :
  emits (λ ev, isWrite ev = false)
        (loadMePrepare env serverUrl client currentUser).
Proof.
  unfold loadMePrepare. emits_steps; try reflexivity.
  by apply loadMeRoles_emits.
Qed.

(** C1.  When the database and the client are resolved, the
    authentication phase succeeds, and an exception is thrown in the
    phase that follows (the six-request join, the staging of the records,
    the role fetch) before the batch commit is reached, [loadMe] returns
    the error with no current user, and its trace holds no write: no
    [batchRecords], and no handler called to write at once. *)
Theorem loadMe_throw_before_commit
    env serverUrl args sd client currentUser t0 t1 e :
  serverDatabases env !! serverUrl = Some sd →
  clients env !! serverUrl = Some client →
  loadMeAuth client args = (t0, Resolved currentUser) →
  loadMePrepare env serverUrl client currentUser = (t1, Rejected e) →
  loadMe env serverUrl args =
    (t0 ++ t1,
     Resolved {| LoadMeResult.error := Some e;
                 LoadMeResult.currentUser := None |}) ∧
  committed (loadMe env serverUrl args).1 = [] ∧
  Forall (λ ev, isWrite ev = false) (loadMe env serverUrl args).1.
Proof.
  intros Hdb Hclient Hauth Hprep.
  rewrite (loadMe_phases _ _ _ _ _ Hdb Hclient), Hauth, Hprep. simpl.
  assert (Hquiet : Forall (λ ev, isWrite ev = false) (t0 ++ t1)).
  { apply Forall_app. split.
    - change t0 with (t0, Resolved currentUser).1. rewrite <- Hauth.
      by apply loadMeAuth_emits.
    - change t1 with (t1, @Rejected (ServerDataOperator * list Model) e).1.
      rewrite <- Hprep. apply loadMePrepare_no_write. }
  split_and!; [done| |done].
  unfold committed. induction Hquiet as [|ev t Hev _ IH]; [done|].
  by destruct ev.
Qed.

Lemma loadMe_throw_before_commit_witness :
  ∃ t,
    loadMe Sample.env_config_fails Sample.url
      {| LoadMeArgs.deviceToken := Some "token"; LoadMeArgs.user := None |} =
      (t, Resolved {| LoadMeResult.error := Some "config unavailable";
                      LoadMeResult.currentUser := None |}) ∧
    committed t = [].
Proof.
  eexists. 
  destruct (loadMe_throw_before_commit Sample.env_config_fails Sample.url
              {| LoadMeArgs.deviceToken := Some "token";
                 LoadMeArgs.user := None |}
              Sample.db
              (Sample.client 1%nat (Rejected "config unavailable")
                 [Sample.member_a])
              1%nat
              [EvAttachDevice "token"; EvGetMe]
              [EvAnalyticsCreate Sample.url; EvAnalyticsSetUserId "me";
               EvAnalyticsSetUserRoles "system_user"; EvGetMyTeams;
               EvGetMyTeamMembers; EvGetMyTeamUnreads; EvGetMyPreferences;
               EvGetClientConfigOld; EvGetClientLicenseOld]
              "config unavailable")
    as (Hrun & Hcommitted & _); [reflexivity..|].
  split; [exact Hrun|]. by rewrite Hrun in Hcommitted.
Defined.

(** ** The derived My-Team list *)

Lemma find_first {A} (f : A → bool) (l : list A) :
  match List.find f l with
  | Some x =>
      ∃ before after,
        l = before ++ x :: after ∧ Forall (λ y, f y = false) before ∧
        f x = true
  | None => Forall (λ y, f y = false) l
  end.
Proof.
  induction l as [|y l IH]; simpl; [constructor|].
  destruct (f y) eqn:Hy.
  - exists [], l. by split_and!.
  - destruct (List.find f l) as [x|].
    + destruct IH as (before & after & -> & Hbefore & Hx).
      exists (y :: before), after. split_and!; [done| |done].
      by constructor.
    + by constructor.
Qed.

Lemma myTeamOf_joins members unread :
  myTeamJoins members unread (myTeamOf members unread).
Proof.
  unfold myTeamJoins, myTeamOf; simpl. split; [done|].
  pose proof (find_first
    (λ team, String.eqb (TeamMembership.team_id team)
                        (TeamUnread.team_id unread)) members) as Hfind.
  destruct (List.find _ members) as [m|].
  - left. destruct Hfind as (before & after & -> & Hbefore & Hm).
    exists before, m, after. split_and!; [done| |by apply String.eqb_eq|done].
    eapply Forall_impl; [exact Hbefore|]. intros x Hx; simpl in Hx.
    by apply String.eqb_neq.
  - right. split; [|done].
    eapply Forall_impl; [exact Hfind|]. intros x Hx; simpl in Hx.
    by apply String.eqb_neq.
Qed.

(** C5.  In a successful execution of [loadMe], [handleMyTeam] receives
    one list, with one record per team-unread entry that the server
    returned, in order: the record has the team identifier of its entry,
    and the role string of the membership with that team identifier (the
    first one), or the empty string when no membership has it. *)
Theorem loadMe_myTeams_left_join env serverUrl args t r :
  loadMe env serverUrl args = (t, Resolved r) →
  LoadMeResult.error r = None →
  ∃ client members unreads myTeams,
    clients env !! serverUrl = Some client ∧
    getMyTeamMembers client = Resolved members ∧
    getMyTeamUnreads client = Resolved unreads ∧
    handledMyTeams t = [myTeams] ∧
    Forall2 (myTeamJoins members) unreads myTeams.
Proof.
  intros Hrun Herr.
  destruct (serverDatabases env !! serverUrl) as [sd|] eqn:Hdb;
    [|unfold loadMe in Hrun; rewrite Hdb in Hrun; by inversion Hrun; subst].
  destruct (clients env !! serverUrl) as [client|] eqn:Hclient;
    [|unfold loadMe, getClient in Hrun; rewrite Hdb, Hclient in Hrun;
      by inversion Hrun; subst].
  rewrite (loadMe_phases _ _ _ _ _ Hdb Hclient) in Hrun.
  destruct (loadMeAuth client args) as [t0 [currentUser|e]] eqn:Hauth;
    [|destruct (forceLogoutIfNecessary env serverUrl e); by simplify_eq].
  destruct (loadMePrepare env serverUrl client currentUser)
    as [t1 [[op ms]|e]] eqn:Hprep; [|by simplify_eq].
  destruct (loadMeCommit op ms) as [t2 [[]|e]] eqn:Hcommit; [|by simplify_eq].
  injection Hrun as <- <-.
  destruct (loadMePrepare_myTeams _ _ _ _ _ _ _ Hprep)
    as (members & unreads & Hmembers & Hunreads & Hhandled).
  exists client, members, unreads, (map (myTeamOf members) unreads).
  split_and!; [done..| |].
  - unfold handledMyTeams in *. rewrite !omap_app, Hhandled.
    fold (handledMyTeams t0) (handledMyTeams t2).
    rewrite (handledMyTeams_none t0), (handledMyTeams_none t2); [done| |].
    + change t2 with (t2, Resolved ()).1. rewrite <- Hcommit.
      by apply loadMeCommit_emits.
    + change t0 with (t0, Resolved currentUser).1. rewrite <- Hauth.
      by apply loadMeAuth_emits.
  - apply Forall2_fmap_r, Forall_Forall2_diag, Forall_forall.
    intros unread _. apply myTeamOf_joins.
Qed.

Lemma loadMe_myTeams_left_join_witness :
  ∃ myTeams,
    handledMyTeams
      (loadMe Sample.env Sample.url
         {| LoadMeArgs.deviceToken := None; LoadMeArgs.user := Some 1%nat |}).1
      = [myTeams] ∧
    Forall2 (myTeamJoins [Sample.member_a])
            [Sample.unread_a; Sample.unread_b] myTeams.
Proof.
  destruct (loadMe_myTeams_left_join Sample.env Sample.url
              {| LoadMeArgs.deviceToken := None;
                 LoadMeArgs.user := Some 1%nat |}
              (loadMe Sample.env Sample.url
                 {| LoadMeArgs.deviceToken := None;
                    LoadMeArgs.user := Some 1%nat |}).1
              {| LoadMeResult.error := None;
                 LoadMeResult.currentUser := Some 1%nat |})
    as (client & members & unreads & myTeams & Hc & Hm & Hu & Hh & Hj);
    [by vm_compute|reflexivity|].
  exists myTeams. split; [exact Hh|].
  vm_compute in Hc. injection Hc as <-.
  vm_compute in Hm, Hu. injection Hm as <-. injection Hu as <-. exact Hj.
Defined.

(** ** The roles to resolve *)

Lemma split_space_not_nil (s : string) : split_space s ≠ [].
Proof.
  induction s as [|c s IH]; simpl; [done|].
  destruct (Ascii.eqb c " "); [done|]. by destruct (split_space s).
Qed.

Lemma foldl_snoc_app {A} (acc l : list A) :
  foldl (λ roles role, roles ++ [role]) acc l = acc ++ l.
Proof.
  revert acc. induction l as [|x l IH]; intros acc; simpl.
  - by rewrite app_nil_r.
  - by rewrite IH, <- app_assoc.
Qed.

Lemma elem_of_foldl_member_roles (ms : list TeamMembership.t) acc r :
  r ∈ foldl (λ roles teamMember,
               roles ++ split_space (TeamMembership.roles teamMember)) acc ms ↔
    r ∈ acc ∨ ∃ m, m ∈ ms ∧ r ∈ split_space (TeamMembership.roles m).
Proof.
  revert acc. induction ms as [|m ms IH]; intros acc; simpl.
  - split; [by left|]. intros [?|(m & []%elem_of_nil & _)]; done.
  - rewrite IH, elem_of_app. split.
    + intros [[?|?]|(m' & ? & ?)]; [by left| |].
      * right. exists m. split; [left|done].
      * right. exists m'. split; [by right|done].
    + intros [?|(m' & [->|?]%elem_of_cons & ?)]; [by left; left| |].
      * by left; right.
      * right. by exists m'.
Qed.

(** The set of role names is the union of the pieces of the role strings:
    the current user's and every membership's. *)
Lemma elem_of_rolesToLoad userRoles (ms : list TeamMembership.t) r :
  r ∈ Set_from (collectRoles userRoles ms) ↔
    r ∈ split_space userRoles ∨
    ∃ m, m ∈ ms ∧ r ∈ split_space (TeamMembership.roles m).
Proof.
  rewrite elem_of_Set_from. unfold collectRoles.
  by rewrite elem_of_foldl_member_roles, foldl_snoc_app.
Qed.

(** The set is never empty: a role string, even the empty one, has at
    least one piece. *)
Lemma rolesToLoad_not_nil userRoles (ms : list TeamMembership.t) :
  Set_from (collectRoles userRoles ms) ≠ [].
Proof.
  intros Hnil. destruct (split_space userRoles) as [|r rs] eqn:Hsplit;
    [by apply split_space_not_nil in Hsplit|].
  assert (Hr : r ∈ Set_from (collectRoles userRoles ms)).
  { apply elem_of_rolesToLoad. left. rewrite Hsplit. left. }
  rewrite Hnil in Hr. by apply elem_of_nil in Hr.
Qed.

(** So the guard of line 238 always passes: whenever [loadMe] reaches the
    role resolution, the roles are fetched from the server. *)
Lemma loadMeRoles_always_fetches client op userRoles
    (ms : list TeamMembership.t) :
  let rolesToLoad := Set_from (collectRoles userRoles ms) in
  ∃ t, (loadMeRoles client op rolesToLoad).1 = EvGetRolesByNames rolesToLoad :: t.
Proof.
  cbv zeta. unfold loadMeRoles.
  destruct (Set_from (collectRoles userRoles ms)) as [|r rs] eqn:Hset;
    [by apply rolesToLoad_not_nil in Hset|].
  cbn. destruct (getRolesByNames client (r :: rs)); cbn; eauto.
Qed.

(** C6, at the failing input: the current user of the sample server has
    the empty role string and belongs to no team.  The role list is then
    [""], the set to resolve has one element, and [getRolesByNames] is
    called with it. *)
Theorem loadMe_empty_roles_still_fetches :
  let args := {| LoadMeArgs.deviceToken := None; LoadMeArgs.user := None |} in
  let run := loadMe Sample.env_no_roles Sample.url args in
  UserProfile.roles (heap Sample.env_no_roles 3%nat) = "" ∧
  run.2 = Resolved {| LoadMeResult.error := None;
                      LoadMeResult.currentUser := Some 3%nat |} ∧
  collectRoles "" [] = [""] ∧
  roleFetches run.1 = [[""]].
Proof. by vm_compute. Qed.

(** ** updateMe *)

Lemma updateMe_patched env serverUrl user sd client profile :
  serverDatabases env !! serverUrl = Some sd →
  clients env !! serverUrl = Some client →
  patchMe client (UserModel._raw user) = Resolved (Some profile) →
  let updatedRoles := split_space (UserProfile.roles (heap env profile)) in
  updateMe env serverUrl user =
    ([EvPatchMe (UserModel._raw user); EvHandleUsers false [profile];
      EvFetchRolesIfNeeded serverUrl updatedRoles],
     match fetchRolesIfNeeded env serverUrl updatedRoles with
     | Resolved _ => Resolved {| UpdateMeResult.data := Some profile;
                                 UpdateMeResult.error := None |}
     | Rejected e => Rejected e
     end).
Proof.
  intros Hdb Hclient Hpatch. cbv zeta. unfold updateMe, getClient.
  rewrite Hdb, Hclient. cbn. rewrite Hpatch. cbn.
  destruct (split_space (UserProfile.roles (heap env profile))) as [|r rs]
    eqn:Hsplit; [by apply split_space_not_nil in Hsplit|].
  cbn. by destruct (fetchRolesIfNeeded env serverUrl (r :: rs)).
Qed.

(** C7, refuted as written: the stored user of the sample server has the
    role string "system_user", the patch returns a profile with the same
    role string, and the role refresh is triggered all the same. *)
Lemma updateMe_refreshes_unchanged_roles :
  ¬ refreshesIffRolesChanged Sample.env Sample.url
      {| UserModel._raw := {| RawUser.id := "me";
                              RawUser.roles := "system_user" |} |}.
Proof.
  intros H.
  destruct (H [EvPatchMe {| RawUser.id := "me"; RawUser.roles := "system_user" |};
               EvHandleUsers false [1%nat];
               EvFetchRolesIfNeeded Sample.url ["system_user"]]
              {| UpdateMeResult.data := Some 1%nat;
                 UpdateMeResult.error := None |}
              1%nat) as [Hsame _]; [by vm_compute|done|].
  apply (Hsame eq_refl ["system_user"]). do 2 right. left.
Qed.

(** C7, amended.  Every successful [updateMe] that returns a profile
    triggers the role refresh for the pieces of the returned role string,
    whether that string differs from the user's previous one or not. *)
Theorem updateMe_always_refreshes env serverUrl user t r profile :
  updateMe env serverUrl user = (t, Resolved r) →
  UpdateMeResult.data r = Some profile →
  EvFetchRolesIfNeeded serverUrl
    (split_space (UserProfile.roles (heap env profile))) ∈ t.
Proof.
  intros Hrun Hdata.
  destruct (serverDatabases env !! serverUrl) as [sd|] eqn:Hdb;
    [|unfold updateMe in Hrun; rewrite Hdb in Hrun;
      by inversion Hrun; subst].
  destruct (clients env !! serverUrl) as [client|] eqn:Hclient;
    [|unfold updateMe, getClient in Hrun; rewrite Hdb, Hclient in Hrun;
      by inversion Hrun; subst].
  destruct (patchMe client (UserModel._raw user)) as [[profile'|]|e] eqn:Hpatch.
  - rewrite (updateMe_patched _ _ _ _ _ _ Hdb Hclient Hpatch) in Hrun.
    destruct (fetchRolesIfNeeded _ _ _); [|done].
    inversion Hrun; subst; simpl in Hdata. injection Hdata as ->.
    do 2 right. left.
  - unfold updateMe, getClient in Hrun. rewrite Hdb, Hclient in Hrun.
    cbn in Hrun. rewrite Hpatch in Hrun. by inversion Hrun; subst.
  - unfold updateMe, getClient in Hrun. rewrite Hdb, Hclient in Hrun.
    cbn in Hrun. rewrite Hpatch in Hrun. by inversion Hrun; subst.
Qed.

Lemma updateMe_always_refreshes_witness :
  EvFetchRolesIfNeeded Sample.url ["system_user"] ∈
    (updateMe Sample.env Sample.url
       {| UserModel._raw := {| RawUser.id := "me";
                               RawUser.roles := "system_user" |} |}).1.
Proof.
  apply (updateMe_always_refreshes Sample.env Sample.url
           {| UserModel._raw := {| RawUser.id := "me";
                                   RawUser.roles := "system_user" |} |}
           _
           {| UpdateMeResult.data := Some 1%nat;
              UpdateMeResult.error := None |}
           1%nat); reflexivity.
Defined.

(** ** Resources that cannot be resolved *)




Lemma collectUsers_errorEntries e (channelIds : list string) :
  collectUsers (map (errorEntry e) channelIds) = [].
Proof.
  apply elem_of_nil_inv. intros u.
  rewrite elem_of_collectUsers.
  intros (item & (ch & -> & _)%list_elem_of_fmap & Hu).
  by apply elem_of_nil in Hu.
Qed.




(** [fetchProfilesPerChannels] never rejects: its handler returns. *)
Lemma fetchProfilesPerChannels_resolves env serverUrl channelIds ex fetchOnly :
  ∃ r, (fetchProfilesPerChannels env serverUrl channelIds ex fetchOnly).2
         = Resolved r.
Proof.
  unfold fetchProfilesPerChannels. rewrite try_catch_outcome.
  case_outcome; by eexists.
Qed.





(** * Further properties *)

(** ** fetchMe *)

(** X1. The only call [fetchMe] ever makes to the store is one immediate
    upsert of the user it fetched, and only when it is not fetch-only, the
    fetch succeeded and a database is registered; it never stages and
    never batch-commits. *)
Theorem fetchMe_store_calls env serverUrl fetchOnly :
  let t := (fetchMe env serverUrl fetchOnly).1 in
  storeCalls t = [] ∨
  ∃ client user sd,
    fetchOnly = false ∧
    clients env !! serverUrl = Some client ∧
    getMe client = Resolved user ∧
    serverDatabases env !! serverUrl = Some sd ∧
    storeCalls t = [EvHandleUsers false [user]].
Proof.
  cbv zeta. unfold fetchMe, getClient.
  destruct (clients env !! serverUrl) as [client|] eqn:Hc; [|by left].
  cbn. destruct (getMe client) as [user|e] eqn:Hme; cbn.
  - destruct fetchOnly; [left; reflexivity|].
    destruct (serverDatabases env !! serverUrl) as [sd|] eqn:Hdb;
      [|left; reflexivity].
    right. by exists client, user, sd.
  - left.
    by destruct (forceLogoutIfNecessary env serverUrl e).
Qed.

(** X2. When the remote call of [fetchMe] is rejected, the forced-logout
    check is awaited with that error and nothing else is called; the
    error is returned, unless the check itself is rejected, in which case
    [fetchMe] is rejected with the error of the check. *)
Theorem fetchMe_remote_failure env serverUrl fetchOnly client e :
  clients env !! serverUrl = Some client →
  getMe client = Rejected e →
  fetchMe env serverUrl fetchOnly =
    ([EvGetMe; EvForceLogoutIfNecessary serverUrl e],
     match forceLogoutIfNecessary env serverUrl e with
     | Resolved _ => Resolved {| MyUserRequest.user := None;
                                 MyUserRequest.error := Some e |}
     | Rejected e' => Rejected e'
     end).
Proof.
  intros Hc Hme. unfold fetchMe, getClient. rewrite Hc. cbn. rewrite Hme. cbn.
  by destruct (forceLogoutIfNecessary env serverUrl e).
Qed.

Lemma fetchMe_remote_failure_witness :
  fetchMe Faulty.env_logout_fails Sample.url false =
    ([EvGetMe; EvForceLogoutIfNecessary Sample.url "session expired"],
     Rejected "logout failed").
Proof.
  apply (fetchMe_remote_failure Faulty.env_logout_fails Sample.url false
           Faulty.expired "session expired"); reflexivity.
Defined.

(** ** fetchProfilesInChannel *)

Lemma foldl_Set_add_fresh {A} `{EqDecision A} (xs s : list A) :
  NoDup (s ++ xs) → foldl Set_add s xs = s ++ xs.
Proof.
  revert s. induction xs as [|x xs IH]; intros s Hnd; simpl.
  - by rewrite app_nil_r.
  - unfold Set_add at 2. case_decide as Hin.
    + apply NoDup_app in Hnd as (_ & Hdisj & _).
      destruct (Hdisj x Hin). left.
    + rewrite IH; [by rewrite <- app_assoc|]. by rewrite <- app_assoc.
Qed.

(** A list without repeated elements goes through a [Set] unchanged. *)
Lemma Set_from_NoDup {A} `{EqDecision A} (xs : list A) :
  NoDup xs → Set_from xs = xs.
Proof. intros Hnd. by apply (foldl_Set_add_fresh xs []). Qed.

Lemma fetchProfilesInChannel_settles
    env serverUrl channelId ex fetchOnly :
  ∃ r,
    (fetchProfilesInChannel env serverUrl channelId ex fetchOnly).2
      = Resolved r ∧
    ProfilesInChannelRequest.channelId r = channelId ∧
    (ProfilesInChannelRequest.users r = None ↔
       is_Some (ProfilesInChannelRequest.error r)).
Proof.
  unfold fetchProfilesInChannel.
  destruct (getClient env serverUrl) as [client|e].
  - rewrite try_catch_outcome. case_outcome.
    + rewrite bind_outcome, call_outcome in Hsettled.
      destruct (getProfilesInChannel client channelId); [|done].
      rewrite bind_outcome in Hsettled. revert Hsettled.
      case_outcome; [|done]. intros [= <-].
      eexists. split_and!; [done..|]. simpl. split; [done|].
      by intros [? [=]].
    + eexists. split_and!; [done..|]. simpl. split; [by eexists|done].
  - eexists. split_and!; [done..|]. simpl. split; [by eexists|done].
Qed.

(** X3. [fetchProfilesInChannel] never rejects, whatever the client and
    the store do.  Its result always carries the channel identifier it
    was called with, and exactly one of the user list and the error. *)
Theorem fetchProfilesInChannel_result_shape
    env serverUrl channelId ex fetchOnly :
  ∃ r,
    (fetchProfilesInChannel env serverUrl channelId ex fetchOnly).2
      = Resolved r ∧
    ProfilesInChannelRequest.channelId r = channelId ∧
    (ProfilesInChannelRequest.users r = None ↔
       is_Some (ProfilesInChannelRequest.error r)).
Proof. apply fetchProfilesInChannel_settles. Qed.

(** X4. When the server's list has no repeated object,
    [fetchProfilesInChannel] in fetch-only mode returns that very list,
    in the server's order, after the one remote call; the excluded user
    stays in it. *)
Theorem fetchProfilesInChannel_fetchOnly_returns_fetched
    env serverUrl channelId ex client fetched :
  clients env !! serverUrl = Some client →
  getProfilesInChannel client channelId = Resolved fetched →
  NoDup fetched →
  fetchProfilesInChannel env serverUrl channelId ex true =
    ([EvGetProfilesInChannel channelId],
     Resolved {| ProfilesInChannelRequest.users := Some fetched;
                 ProfilesInChannelRequest.channelId := channelId;
                 ProfilesInChannelRequest.error := None |}).
Proof.
  intros Hc Hf Hnd. unfold fetchProfilesInChannel, getClient.
  rewrite Hc. cbn. rewrite Hf. cbn. by rewrite Set_from_NoDup.
Qed.

Lemma fetchProfilesInChannel_fetchOnly_returns_fetched_witness :
  fetchProfilesInChannel Sample.env Sample.url "town" (Some "me") true =
    ([EvGetProfilesInChannel "town"],
     Resolved {| ProfilesInChannelRequest.users := Some [1; 2]%nat;
                 ProfilesInChannelRequest.channelId := "town";
                 ProfilesInChannelRequest.error := None |}).
Proof.
  apply (fetchProfilesInChannel_fetchOnly_returns_fetched
           Sample.env Sample.url "town" (Some "me") Sample.good_client
           [1; 2]%nat); [reflexivity..|].
  apply NoDup_cons. split; [by intros ?%list_elem_of_singleton|].
  apply NoDup_singleton.
Defined.

(** X5. When the commit of [fetchProfilesInChannel] is rejected by the
    store, the users that were fetched are not returned: the result
    carries the error of the store, and that error is handed to the
    forced-logout check. *)
Theorem fetchProfilesInChannel_commit_failure
    env serverUrl channelId ex client fetched sd m ms e :
  clients env !! serverUrl = Some client →
  getProfilesInChannel client channelId = Resolved fetched →
  serverDatabases env !! serverUrl = Some sd →
  let staged := filter (notExcluded env ex) (Set_from fetched) in
  prepareUsers env (operator sd) staged = Some (Resolved (m :: ms)) →
  batchRecords (operator sd) (m :: ms) = Rejected e →
  fetchProfilesInChannel env serverUrl channelId ex false =
    ([EvGetProfilesInChannel channelId; EvPrepareUsers staged;
      EvBatchRecords (m :: ms); EvForceLogoutIfNecessary serverUrl e],
     Resolved (errorEntry e channelId)).
Proof.
  intros Hc Hf Hdb staged Hprep Hbatch.
  unfold fetchProfilesInChannel, getClient. rewrite Hc. cbn. rewrite Hf. cbn.
  rewrite Hdb. unfold stageAndCommit. fold staged. cbn.
  rewrite Hprep. cbn. rewrite Hbatch. reflexivity.
Qed.

Lemma fetchProfilesInChannel_commit_failure_witness :
  fetchProfilesInChannel Faulty.env_disk_full Sample.url "town" (Some "me")
    false =
    ([EvGetProfilesInChannel "town"; EvPrepareUsers [2%nat];
      EvBatchRecords [{| table := "User"; key := "u2" |}];
      EvForceLogoutIfNecessary Sample.url "disk full"],
     Resolved (errorEntry "disk full" "town")).
Proof.
  apply (fetchProfilesInChannel_commit_failure
           Faulty.env_disk_full Sample.url "town" (Some "me")
           Sample.good_client [1; 2]%nat
           {| database := "srv.db";
              operator := Faulty.op (Rejected "disk full") |}
           {| table := "User"; key := "u2" |} [] "disk full");
    reflexivity.
Defined.

(** X6. With the client and the database resolved and the fetch
    successful, [fetchProfilesInChannel] commits at most one batch: the
    records that [prepareUsers] made of the staged users.  Nothing is
    committed when [prepareUsers] returns nothing, is rejected, or
    prepares no record. *)
Theorem fetchProfilesInChannel_commits_prepared
    env serverUrl channelId ex client fetched sd :
  clients env !! serverUrl = Some client →
  getProfilesInChannel client channelId = Resolved fetched →
  serverDatabases env !! serverUrl = Some sd →
  let staged := filter (notExcluded env ex) (Set_from fetched) in
  let run := fetchProfilesInChannel env serverUrl channelId ex false in
  stagedUsers run.1 = [staged] ∧
  committed run.1 =
    match prepareUsers env (operator sd) staged with
    | Some (Resolved (m :: ms)) => [m :: ms]
    | _ => []
    end.
Proof.
  intros Hc Hf Hdb staged. cbv zeta.
  unfold fetchProfilesInChannel, getClient. rewrite Hc. cbn. rewrite Hf. cbn.
  rewrite Hdb. fold staged. unfold stageAndCommit. cbn.
  destruct (prepareUsers env (operator sd) staged) as [[[|m ms]|e]|]; cbn;
    try done.
  by destruct (batchRecords (operator sd) (m :: ms)).
Qed.

Lemma fetchProfilesInChannel_commits_prepared_witness :
  committed
    (fetchProfilesInChannel Sample.env Sample.url "town" (Some "me") false).1
    = [[{| table := "User"; key := "u2" |}]].
Proof.
  apply (fetchProfilesInChannel_commits_prepared
           Sample.env Sample.url "town" (Some "me") Sample.good_client
           [1; 2]%nat Sample.db); reflexivity.
Defined.

(** ** fetchProfilesPerChannels *)

Lemma fanOut_events env serverUrl ex (channelIds : list string) :
  (Async_all
     (map (λ id, fetchProfilesInChannelStart env serverUrl id ex true)
          channelIds)).1 =
    concat (map (λ ch,
                   (fetchProfilesInChannelStart env serverUrl ch ex true).1)
                channelIds) ++
    concat (map (λ ch,
                   (fetchProfilesInChannelStart env serverUrl ch ex true).2.1)
                channelIds).
Proof. unfold Async_all; cbn [fst]. by rewrite !map_map. Qed.

Lemma stageAndCommit_store_calls env op users :
  storeCalls (stageAndCommit env op users).1 = (stageAndCommit env op users).1.
Proof.
  rewrite stageAndCommit_trace.
  by destruct (prepareUsers env op users) as [[[|m ms]|e]|].
Qed.

Lemma stageAndCommit_requests env op users :
  requestedChannels (stageAndCommit env op users).1 = [].
Proof.
  rewrite stageAndCommit_trace.
  by destruct (prepareUsers env op users) as [[[|m ms]|e]|].
Qed.

Lemma perChannel_entries_ids env serverUrl ex (channelIds : list string) data :
  Forall2 (λ ch item,
             (fetchProfilesInChannel env serverUrl ch ex true).2
               = Resolved item) channelIds data →
  map ProfilesInChannelRequest.channelId data = channelIds.
Proof.
  induction 1 as [|ch item chs data Hitem _ IH]; simpl; [done|].
  destruct (fetchProfilesInChannel_settles env serverUrl ch ex true)
    as (r & Hr & Hid & _).
  rewrite Hr in Hitem. injection Hitem as <-. by rewrite Hid, IH.
Qed.

(** The fan-out, then what follows it (lines 96-115). *)
Lemma fetchProfilesPerChannels_unfold
    env serverUrl channelIds ex (fetchOnly : bool) :
  ∃ data (persist : Async unit),
    Forall2 (λ ch item,
               (fetchProfilesInChannel env serverUrl ch ex true).2
                 = Resolved item) channelIds data ∧
    persist =
      (if fetchOnly then mret ()
       else match serverDatabases env !! serverUrl with
            | Some sd =>
                stageAndCommit env (operator sd)
                  (filter (notExcluded env ex) (collectUsers data))
            | None => mret ()
            end) ∧
    (fetchProfilesPerChannels env serverUrl channelIds ex fetchOnly).1 =
      (concat (map (λ ch,
                      (fetchProfilesInChannelStart env serverUrl ch ex
                         true).1) channelIds) ++
       concat (map (λ ch,
                      (fetchProfilesInChannelStart env serverUrl ch ex
                         true).2.1) channelIds)) ++ persist.1 ∧
    (fetchProfilesPerChannels env serverUrl channelIds ex fetchOnly).2 =
      match persist.2 with
      | Resolved _ =>
          Resolved {| ProfilesPerChannelRequest.data := Some data;
                      ProfilesPerChannelRequest.error := None |}
      | Rejected e =>
          Resolved {| ProfilesPerChannelRequest.data := None;
                      ProfilesPerChannelRequest.error := Some e |}
      end.
Proof.
  destruct (perChannel_entries env serverUrl ex channelIds) as [data Hdata].
  exists data. eexists. split; [done|]. split; [reflexivity|].
  set (reqs := map (λ id, fetchProfilesInChannelStart env serverUrl id ex
                            true) channelIds).
  assert (Hall : (Async_all reqs).2 = Resolved data).
  { by apply fanOut_resolved. }
  pose proof (fanOut_events env serverUrl ex channelIds) as Hev.
  fold reqs in Hev.
  unfold fetchProfilesPerChannels. fold reqs.
  rewrite try_catch_trace, try_catch_outcome, !bind_trace, !bind_outcome.
  rewrite Hall, Hev. cbn [fst snd].
  set (persist := if fetchOnly then _ else _).
  rewrite (bind_trace persist), (bind_outcome persist).
  destruct persist.2; cbn; by rewrite ?app_nil_r.
Qed.

(** X7. [fetchProfilesPerChannels] never rejects.  Its result carries
    exactly one of the data and the error, and the data, when there, has
    one entry per requested channel, in the order of the request, each
    with the identifier of its channel. *)
Theorem fetchProfilesPerChannels_result_shape
    env serverUrl channelIds ex fetchOnly :
  ∃ r,
    (fetchProfilesPerChannels env serverUrl channelIds ex fetchOnly).2
      = Resolved r ∧
    (ProfilesPerChannelRequest.data r = None ↔
       is_Some (ProfilesPerChannelRequest.error r)) ∧
    ∀ data, ProfilesPerChannelRequest.data r = Some data →
            map ProfilesInChannelRequest.channelId data = channelIds.
Proof.
  destruct (fetchProfilesPerChannels_unfold env serverUrl channelIds ex
              fetchOnly) as (data & persist & Hdata & _ & _ & ->).
  destruct persist.2; eexists; (split; [done|]); simpl; split.
  - split; [done|]. by intros [? [=]].
  - intros ? [= <-]. by eapply perChannel_entries_ids.
  - split; [by eexists|done].
  - done.
Qed.

(** X8. In fetch-only mode [fetchProfilesPerChannels] always returns the
    data, never an error: what goes wrong with a channel stays in the
    entry of that channel. *)
Theorem fetchProfilesPerChannels_fetchOnly_returns_data
    env serverUrl channelIds ex :
  ∃ data,
    (fetchProfilesPerChannels env serverUrl channelIds ex true).2 =
      Resolved {| ProfilesPerChannelRequest.data := Some data;
                  ProfilesPerChannelRequest.error := None |} ∧
    Forall2 (λ ch item,
               (fetchProfilesInChannel env serverUrl ch ex true).2
                 = Resolved item) channelIds data.
Proof.
  destruct (fetchProfilesPerChannels_unfold env serverUrl channelIds ex true)
    as (data & persist & Hdata & -> & _ & ->).
  by exists data.
Qed.

Lemma fetchProfilesInChannelStart_requests env serverUrl ch ex client :
  clients env !! serverUrl = Some client →
  requestedChannels
    (fetchProfilesInChannelStart env serverUrl ch ex true).1 = [ch] ∧
  requestedChannels
    (fetchProfilesInChannelStart env serverUrl ch ex true).2.1 = [].
Proof.
  intros Hc. unfold fetchProfilesInChannelStart, getClient. rewrite Hc. cbn.
  by destruct (getProfilesInChannel client ch).
Qed.

(** X9. With a client registered, [fetchProfilesPerChannels] requests the
    profiles of every channel it was given, once each and in the given
    order, whether or not some of these requests fail. *)
Theorem fetchProfilesPerChannels_requests_every_channel
    env serverUrl channelIds ex fetchOnly client :
  clients env !! serverUrl = Some client →
  requestedChannels
    (fetchProfilesPerChannels env serverUrl channelIds ex fetchOnly).1
    = channelIds.
Proof.
  intros Hc.
  destruct (fetchProfilesPerChannels_unfold env serverUrl channelIds ex
              fetchOnly) as (data & persist & _ & Hp & -> & _).
  unfold requestedChannels. rewrite omap_app.
  fold (requestedChannels persist.1).
  assert (Hquiet : requestedChannels persist.1 = []).
  { rewrite Hp. destruct fetchOnly; [done|].
    destruct (serverDatabases env !! serverUrl); [|done].
    apply stageAndCommit_requests. }
  rewrite Hquiet, app_nil_r, omap_app. clear -Hc.
  assert (Hsent :
    omap (λ ev, match ev with
                | EvGetProfilesInChannel ch => Some ch
                | _ => None
                end)
      (concat (map (λ ch,
                      (fetchProfilesInChannelStart env serverUrl ch ex
                         true).1) channelIds)) = channelIds).
  { induction channelIds as [|ch chs IH]; cbn [map concat]; [done|].
    rewrite omap_app, IH.
    fold (requestedChannels
            (fetchProfilesInChannelStart env serverUrl ch ex true).1).
    by rewrite (proj1 (fetchProfilesInChannelStart_requests _ _ _ _ _ Hc)). }
  assert (Hlater :
    omap (λ ev, match ev with
                | EvGetProfilesInChannel ch => Some ch
                | _ => None
                end)
      (concat (map (λ ch,
                      (fetchProfilesInChannelStart env serverUrl ch ex
                         true).2.1) channelIds)) = []).
  { clear Hsent.
    induction channelIds as [|ch chs IH]; cbn [map concat]; [done|].
    rewrite omap_app, IH.
    fold (requestedChannels
            (fetchProfilesInChannelStart env serverUrl ch ex true).2.1).
    by rewrite (proj2 (fetchProfilesInChannelStart_requests _ _ _ _ _ Hc)). }
  by rewrite Hsent, Hlater, app_nil_r.
Qed.

Lemma fetchProfilesPerChannels_requests_every_channel_witness :
  requestedChannels
    (fetchProfilesPerChannels Sample.env Sample.url ["town"; "nope"; "dev"]
       (Some "me") false).1
    = ["town"; "nope"; "dev"].
Proof.
  apply (fetchProfilesPerChannels_requests_every_channel
           Sample.env Sample.url ["town"; "nope"; "dev"] (Some "me") false
           Sample.good_client).
  reflexivity.
Defined.

Lemma collectUsers_single (users : list Ref) (channelId : string) :
  NoDup users →
  collectUsers [ {| ProfilesInChannelRequest.users := Some users;
                    ProfilesInChannelRequest.channelId := channelId;
                    ProfilesInChannelRequest.error := None |} ] = users.
Proof.
  intros Hnd. unfold collectUsers, collectStep; simpl.
  destruct users as [|u us]; [done|].
  by apply (foldl_Set_add_fresh (u :: us) []).
Qed.

(** X10. For one channel whose fetch succeeds, and with a database
    registered, the fan-out makes the same calls to the store as the
    single-channel operation: the same list is staged, and the same batch
    is committed. *)
Theorem fetchProfilesPerChannels_single_channel
    env serverUrl channelId ex client fetched sd :
  clients env !! serverUrl = Some client →
  getProfilesInChannel client channelId = Resolved fetched →
  serverDatabases env !! serverUrl = Some sd →
  storeCalls
    (fetchProfilesPerChannels env serverUrl [channelId] ex false).1 =
  storeCalls (fetchProfilesInChannel env serverUrl channelId ex false).1.
Proof.
  intros Hc Hf Hdb.
  set (staged := filter (notExcluded env ex) (Set_from fetched)).
  assert (Hin :
    storeCalls (fetchProfilesInChannel env serverUrl channelId ex false).1 =
      (stageAndCommit env (operator sd) staged).1).
  { unfold fetchProfilesInChannel, getClient. rewrite Hc.
    rewrite try_catch_trace, bind_trace, bind_outcome, call_outcome, Hf.
    cbn [fst snd call request await mbind Async_bind bind app].
    rewrite Hdb. fold staged.
    rewrite (bind_trace (stageAndCommit _ _ _)),
            (bind_outcome (stageAndCommit _ _ _)).
    unfold storeCalls. cbn [List.filter isStoreCall].
    rewrite !List.filter_app.
    fold (storeCalls (stageAndCommit env (operator sd) staged).1).
    rewrite stageAndCommit_store_calls.
    destruct (stageAndCommit env (operator sd) staged).2;
      cbn; by rewrite ?app_nil_r. }
  rewrite Hin.
  destruct (fetchProfilesPerChannels_unfold env serverUrl [channelId] ex
              false) as (data & persist & Hdata & Hp & -> & _).
  apply Forall2_cons_inv_l in Hdata as (item & rest & Hitem & Hrest & ->).
  apply Forall2_nil_inv_l in Hrest as ->.
  assert (Hentry :
    (fetchProfilesInChannel env serverUrl channelId ex true).2 =
      Resolved {| ProfilesInChannelRequest.users := Some (Set_from fetched);
                  ProfilesInChannelRequest.channelId := channelId;
                  ProfilesInChannelRequest.error := None |}).
  { unfold fetchProfilesInChannel, getClient. rewrite Hc. cbn.
    by rewrite Hf. }
  rewrite Hentry in Hitem. injection Hitem as <-.
  rewrite Hdb, collectUsers_single in Hp by apply NoDup_Set_from.
  fold staged in Hp. subst persist.
  assert (Hstart :
    (fetchProfilesInChannelStart env serverUrl channelId ex true).1
      = [EvGetProfilesInChannel channelId] ∧
    (fetchProfilesInChannelStart env serverUrl channelId ex true).2.1 = []).
  { unfold fetchProfilesInChannelStart, getClient. rewrite Hc. cbn.
    by rewrite Hf. }
  destruct Hstart as [Hnow Hlater].
  unfold storeCalls. cbn [concat map]. rewrite Hnow, Hlater.
  cbn [app]. change (List.filter isStoreCall (?ev :: ?t)) with
    (List.filter isStoreCall t).
  fold (storeCalls (stageAndCommit env (operator sd) staged).1).
  by rewrite stageAndCommit_store_calls.
Qed.

Lemma fetchProfilesPerChannels_single_channel_witness :
  storeCalls
    (fetchProfilesPerChannels Sample.env Sample.url ["town"] (Some "me")
       false).1 =
  storeCalls
    (fetchProfilesInChannel Sample.env Sample.url "town" (Some "me") false).1.
Proof.
  apply (fetchProfilesPerChannels_single_channel
           Sample.env Sample.url "town" (Some "me") Sample.good_client
           [1; 2]%nat Sample.db); reflexivity.
Defined.

(** ** loadMe *)

Lemma no_write_committed (t : list Event) :
  Forall (λ ev, isWrite ev = false) t → committed t = [].
Proof.
  unfold committed. induction 1 as [|ev t Hev _ IH]; [done|]. by destruct ev.
Qed.

Lemma loadMeAuth_committed client args :
  committed (loadMeAuth client args).1 = [].
Proof. apply no_write_committed. by apply loadMeAuth_emits. Qed.

Lemma loadMePrepare_committed env serverUrl client currentUser :
  committed (loadMePrepare env serverUrl client currentUser).1 = [].
Proof. apply no_write_committed, loadMePrepare_no_write. Qed.

(** What [loadMe] does for a given outcome of its three phases. *)
Lemma loadMe_success_inv env serverUrl args t r :
  loadMe env serverUrl args = (t, Resolved r) →
  LoadMeResult.error r = None →
  ∃ sd client currentUser t0 t1 op ms t2,
    serverDatabases env !! serverUrl = Some sd ∧
    clients env !! serverUrl = Some client ∧
    loadMeAuth client args = (t0, Resolved currentUser) ∧
    loadMePrepare env serverUrl client currentUser
      = (t1, Resolved (op, ms)) ∧
    loadMeCommit op ms = (t2, Resolved ()) ∧
    t = t0 ++ t1 ++ t2 ∧
    LoadMeResult.currentUser r = Some currentUser.
Proof.
  intros Hrun Herr.
  destruct (serverDatabases env !! serverUrl) as [sd|] eqn:Hdb;
    [|unfold loadMe in Hrun; rewrite Hdb in Hrun; by inversion Hrun; subst].
  destruct (clients env !! serverUrl) as [client|] eqn:Hclient;
    [|unfold loadMe, getClient in Hrun; rewrite Hdb, Hclient in Hrun;
      by inversion Hrun; subst].
  rewrite (loadMe_phases _ _ _ _ _ Hdb Hclient) in Hrun.
  destruct (loadMeAuth client args) as [t0 [currentUser|e]] eqn:Hauth;
    [|destruct (forceLogoutIfNecessary env serverUrl e); by simplify_eq].
  destruct (loadMePrepare env serverUrl client currentUser)
    as [t1 [[op ms]|e]] eqn:Hprep; [|by simplify_eq].
  destruct (loadMeCommit op ms) as [t2 [[]|e]] eqn:Hcommit; [|by simplify_eq].
  injection Hrun as <- <-.
  by exists sd, client, currentUser, t0, t1, op, ms, t2.
Qed.

(** X11. When every request, every handler and the commit succeed,
    [loadMe] returns the current user and commits one batch: the records
    the handlers prepared, in the order teams, team memberships, my teams,
    system rows, preferences, roles, users.  When no record was prepared,
    nothing is committed. *)
Theorem loadMe_commits_prepared_in_order
    env serverUrl args sd client currentUser t0
    teams members unreads preferences config license
    teamR memberR myTeamR systemR prefR roleR userR :
  let op := operator sd in
  let me := heap env currentUser in
  let batch :=
    teamR ++ memberR ++ myTeamR ++ systemR ++ prefR ++ roleR ++ userR in
  serverDatabases env !! serverUrl = Some sd →
  clients env !! serverUrl = Some client →
  loadMeAuth client args = (t0, Resolved currentUser) →
  getMyTeams client = Resolved teams →
  getMyTeamMembers client = Resolved members →
  getMyTeamUnreads client = Resolved unreads →
  getMyPreferences client = Resolved preferences →
  getClientConfigOld client = Resolved config →
  getClientLicenseOld client = Resolved license →
  handleTeam op true teams = Resolved teamR →
  handleTeamMemberships op true members = Resolved memberR →
  handleMyTeam op true (map (myTeamOf members) unreads) = Resolved myTeamR →
  handleSystem op true
    (systemEntries env config license (UserProfile.id me)) = Resolved systemR →
  handlePreferences op true preferences = Resolved prefR →
  (loadMeRoles client op
     (Set_from (collectRoles (UserProfile.roles me) members))).2
    = Resolved roleR →
  handleUsers op true [currentUser] = Resolved userR →
  (batch ≠ [] → batchRecords op batch = Resolved ()) →
  (loadMe env serverUrl args).2 =
    Resolved {| LoadMeResult.error := None;
                LoadMeResult.currentUser := Some currentUser |} ∧
  committed (loadMe env serverUrl args).1 =
    match batch with [] => [] | _ :: _ => [batch] end.
Proof.
  intros op me batch Hdb Hclient Hauth Hteams Hmembers Hunreads Hprefs Hconfig
    Hlicense HteamR HmemberR HmyTeamR HsystemR HprefR HroleR HuserR Hbatch.
  assert (Hprep :
    (loadMePrepare env serverUrl client currentUser).2 = Resolved (op, batch)).
  { unfold loadMePrepare.
    rewrite Hteams, Hmembers, Hunreads, Hprefs, Hconfig, Hlicense, Hdb. cbn.
    subst op me. rewrite (bind_outcome (loadMeRoles _ _ _)), HroleR.
    unfold Promise_all. unfold systemEntries in HsystemR.
    rewrite HteamR, HmemberR, HmyTeamR, HsystemR, HprefR, HuserR. cbn.
    subst batch. by rewrite app_nil_r. }
  rewrite (loadMe_phases _ _ _ _ _ Hdb Hclient), Hauth.
  pose proof (loadMePrepare_committed env serverUrl client currentUser)
    as Hquiet1.
  destruct (loadMePrepare env serverUrl client currentUser)
    as [t1 [[op' ms]|e]]; simpl in Hprep, Hquiet1; [|done].
  injection Hprep as -> ->.
  pose proof (loadMeAuth_committed client args) as Hquiet0.
  rewrite Hauth in Hquiet0; simpl in Hquiet0.
  unfold loadMeCommit. destruct batch as [|m ms] eqn:Hb; cbn.
  - split; [done|]. unfold committed in *.
    by rewrite !omap_app, Hquiet0, Hquiet1.
  - rewrite Hbatch by done. cbn. split; [done|]. unfold committed in *.
    by rewrite !omap_app, Hquiet0, Hquiet1.
Qed.

Lemma loadMe_commits_prepared_in_order_witness :
  committed
    (loadMe Sample.env Sample.url
       {| LoadMeArgs.deviceToken := None;
          LoadMeArgs.user := Some 1%nat |}).1 =
    [Sample.stored "Team" ["ta"] ++ Sample.stored "TeamMembership" ["ta"] ++
     Sample.stored "MyTeam" ["ta"; "tb"] ++
     Sample.stored "System" ["config"; "license"; "currentUserId"] ++
     [] ++ [] ++ Sample.stored "User" ["me"]].
Proof.
  eapply (loadMe_commits_prepared_in_order Sample.env Sample.url
            {| LoadMeArgs.deviceToken := None;
               LoadMeArgs.user := Some 1%nat |}
            Sample.db Sample.good_client 1%nat []
            [Sample.team_a] [Sample.member_a]
            [Sample.unread_a; Sample.unread_b] []
            [("Version", "6.0")] [("IsLicensed", "false")]
            (Sample.stored "Team" ["ta"])
            (Sample.stored "TeamMembership" ["ta"])
            (Sample.stored "MyTeam" ["ta"; "tb"])
            (Sample.stored "System" ["config"; "license"; "currentUserId"])
            [] [] (Sample.stored "User" ["me"])); reflexivity.
Defined.

Lemma attachedDevices_none (t : list Event) :
  Forall (λ ev, match ev with EvAttachDevice _ => False | _ => True end) t →
  attachedDevices t = [].
Proof.
  unfold attachedDevices. induction 1 as [|ev t Hev _ IH]; [done|].
  by destruct ev.
Qed.

Lemma getMeRequests_none (t : list Event) :
  Forall (λ ev, match ev with EvGetMe => False | _ => True end) t →
  getMeRequests t = 0%nat.
Proof.
  unfold getMeRequests. induction 1 as [|ev t Hev _ IH]; [done|].
  by destruct ev.
Qed.

Lemma getMeRequests_app (t1 t2 : list Event) :
  getMeRequests (t1 ++ t2) = (getMeRequests t1 + getMeRequests t2)%nat.
Proof. unfold getMeRequests. by rewrite List.filter_app, length_app. Qed.

(** After the authentication, [loadMe] attaches no device and does not
    ask for the current user again. *)
Lemma loadMe_after_auth_quiet env serverUrl client currentUser :
  let after :=
    ('(op, ms) ← loadMePrepare env serverUrl client currentUser;
     loadMeCommit op ms) in
  attachedDevices after.1 = [] ∧ getMeRequests after.1 = 0%nat.
Proof.
  cbv zeta. split.
  - apply attachedDevices_none. apply emits_bind.
    + unfold loadMePrepare. emits_steps; try exact I.
      by apply loadMeRoles_emits.
    + intros [op ms]. by apply loadMeCommit_emits.
  - apply getMeRequests_none. apply emits_bind.
    + unfold loadMePrepare. emits_steps; try exact I.
      by apply loadMeRoles_emits.
    + intros [op ms]. by apply loadMeCommit_emits.
Qed.

(** The trace of [loadMe]: the authentication, then either the forced
    logout check or the rest. *)
Lemma loadMe_trace env serverUrl args sd client :
  serverDatabases env !! serverUrl = Some sd →
  clients env !! serverUrl = Some client →
  (loadMe env serverUrl args).1 =
    (loadMeAuth client args).1 ++
    match (loadMeAuth client args).2 with
    | Rejected e => [EvForceLogoutIfNecessary serverUrl e]
    | Resolved currentUser =>
        ('(op, ms) ← loadMePrepare env serverUrl client currentUser;
         loadMeCommit op ms).1
    end.
Proof.
  intros Hdb Hclient. rewrite (loadMe_phases _ _ _ _ _ Hdb Hclient).
  destruct (loadMeAuth client args) as [t0 [currentUser|e]]; [|done].
  cbn [fst snd]. rewrite bind_trace.
  destruct (loadMePrepare env serverUrl client currentUser)
    as [t1 [[op ms]|e]]; cbn [fst snd].
  - by destruct (loadMeCommit op ms) as [t2 [[]|e]].
  - by rewrite app_nil_r.
Qed.

(** X12. With the database and the client resolved, [loadMe] attaches the
    device exactly when the caller gave a device token that is not the
    empty string, and then once, with that token. *)
Theorem loadMe_attaches_device_iff_token env serverUrl args sd client :
  serverDatabases env !! serverUrl = Some sd →
  clients env !! serverUrl = Some client →
  attachedDevices (loadMe env serverUrl args).1 =
    match LoadMeArgs.deviceToken args with
    | Some tok => if truthy tok then [tok] else []
    | None => []
    end.
Proof.
  intros Hdb Hclient. rewrite (loadMe_trace _ _ _ _ _ Hdb Hclient).
  unfold attachedDevices. rewrite omap_app.
  assert (Hrest :
    omap (λ ev, match ev with EvAttachDevice tok => Some tok | _ => None end)
      match (loadMeAuth client args).2 with
      | Rejected e => [EvForceLogoutIfNecessary serverUrl e]
      | Resolved currentUser =>
          ('(op, ms) ← loadMePrepare env serverUrl client currentUser;
           loadMeCommit op ms).1
      end = []).
  { destruct (loadMeAuth client args).2 as [currentUser|e]; [|done].
    apply (loadMe_after_auth_quiet env serverUrl client currentUser). }
  rewrite Hrest, app_nil_r. unfold loadMeAuth.
  destruct (LoadMeArgs.deviceToken args) as [tok|]; cbn.
  - destruct (truthy tok); cbn.
    + destruct (attachDevice client tok); cbn; [|done].
      destruct (LoadMeArgs.user args); cbn; [done|].
      by destruct (getMe client).
    + destruct (LoadMeArgs.user args); cbn; [done|].
      by destruct (getMe client).
  - destruct (LoadMeArgs.user args); cbn; [done|].
    by destruct (getMe client).
Qed.

Lemma loadMe_attaches_device_iff_token_witness :
  attachedDevices
    (loadMe Sample.env Sample.url
       {| LoadMeArgs.deviceToken := Some ""; LoadMeArgs.user := None |}).1
    = [].
Proof.
  apply (loadMe_attaches_device_iff_token Sample.env Sample.url
           {| LoadMeArgs.deviceToken := Some ""; LoadMeArgs.user := None |}
           Sample.db Sample.good_client); reflexivity.
Defined.

(** X13. With the database and the client resolved, [loadMe] asks the
    server for the current user exactly when the caller gave none and the
    device attachment, if any, was not rejected; it never asks twice. *)
Theorem loadMe_fetches_user_iff_missing env serverUrl args sd client :
  serverDatabases env !! serverUrl = Some sd →
  clients env !! serverUrl = Some client →
  getMeRequests (loadMe env serverUrl args).1 =
    match LoadMeArgs.user args, attachOutcome client args with
    | None, Resolved _ => 1%nat
    | _, _ => 0%nat
    end.
Proof.
  intros Hdb Hclient. rewrite (loadMe_trace _ _ _ _ _ Hdb Hclient).
  rewrite getMeRequests_app.
  assert (Hrest :
    getMeRequests
      match (loadMeAuth client args).2 with
      | Rejected e => [EvForceLogoutIfNecessary serverUrl e]
      | Resolved currentUser =>
          ('(op, ms) ← loadMePrepare env serverUrl client currentUser;
           loadMeCommit op ms).1
      end = 0%nat).
  { destruct (loadMeAuth client args).2 as [currentUser|e]; [|done].
    apply (loadMe_after_auth_quiet env serverUrl client currentUser). }
  rewrite Hrest, Nat.add_0_r. unfold loadMeAuth, attachOutcome.
  destruct (LoadMeArgs.deviceToken args) as [tok|]; cbn.
  - destruct (truthy tok); cbn.
    + destruct (attachDevice client tok); cbn;
        [|by destruct (LoadMeArgs.user args)].
      destruct (LoadMeArgs.user args); cbn; [done|].
      by destruct (getMe client).
    + destruct (LoadMeArgs.user args); cbn; [done|].
      by destruct (getMe client).
  - destruct (LoadMeArgs.user args); cbn; [done|].
    by destruct (getMe client).
Qed.

Lemma loadMe_fetches_user_iff_missing_witness :
  getMeRequests
    (loadMe Sample.env Sample.url
       {| LoadMeArgs.deviceToken := Some "token";
          LoadMeArgs.user := Some 1%nat |}).1 = 0%nat.
Proof.
  apply (loadMe_fetches_user_iff_missing Sample.env Sample.url
           {| LoadMeArgs.deviceToken := Some "token";
              LoadMeArgs.user := Some 1%nat |}
           Sample.db Sample.good_client); reflexivity.
Defined.

(** X14. When the device attachment is rejected, [loadMe] stops there:
    the current user is not requested, none of the six requests is sent,
    the forced-logout check is awaited with the error, and the error is
    returned with no current user (or the rejection of the check goes
    through). *)
Theorem loadMe_attach_failure env serverUrl args sd client tok e :
  serverDatabases env !! serverUrl = Some sd →
  clients env !! serverUrl = Some client →
  LoadMeArgs.deviceToken args = Some tok →
  truthy tok = true →
  attachDevice client tok = Rejected e →
  loadMe env serverUrl args =
    ([EvAttachDevice tok; EvForceLogoutIfNecessary serverUrl e],
     match forceLogoutIfNecessary env serverUrl e with
     | Resolved _ => Resolved {| LoadMeResult.error := Some e;
                                 LoadMeResult.currentUser := None |}
     | Rejected e' => Rejected e'
     end).
Proof.
  intros Hdb Hclient Htok Htruthy Hattach.
  rewrite (loadMe_phases _ _ _ _ _ Hdb Hclient).
  unfold loadMeAuth. rewrite Htok, Htruthy. cbn. by rewrite Hattach.
Qed.

Lemma loadMe_attach_failure_witness :
  loadMe Faulty.env_no_device Sample.url
    {| LoadMeArgs.deviceToken := Some "token"; LoadMeArgs.user := None |} =
    ([EvAttachDevice "token";
      EvForceLogoutIfNecessary Sample.url "device refused"],
     Resolved {| LoadMeResult.error := Some "device refused";
                 LoadMeResult.currentUser := None |}).
Proof.
  apply (loadMe_attach_failure Faulty.env_no_device Sample.url
           {| LoadMeArgs.deviceToken := Some "token";
              LoadMeArgs.user := None |}
           {| database := "srv.db"; operator := Sample.op |}
           Faulty.no_device "token" "device refused"); reflexivity.
Defined.

(** X15. When the batch commit of [loadMe] is rejected by the store, the
    rejection does not go through: [loadMe] returns the error of the
    store, with no current user, after that one commit attempt. *)
Theorem loadMe_commit_failure
    env serverUrl args sd client currentUser t0 t1 op m ms e :
  serverDatabases env !! serverUrl = Some sd →
  clients env !! serverUrl = Some client →
  loadMeAuth client args = (t0, Resolved currentUser) →
  loadMePrepare env serverUrl client currentUser
    = (t1, Resolved (op, m :: ms)) →
  batchRecords op (m :: ms) = Rejected e →
  loadMe env serverUrl args =
    (t0 ++ t1 ++ [EvBatchRecords (m :: ms)],
     Resolved {| LoadMeResult.error := Some e;
                 LoadMeResult.currentUser := None |}).
Proof.
  intros Hdb Hclient Hauth Hprep Hbatch.
  rewrite (loadMe_phases _ _ _ _ _ Hdb Hclient), Hauth, Hprep.
  unfold loadMeCommit. cbn. by rewrite Hbatch.
Qed.

Lemma loadMe_commit_failure_witness :
  (loadMe Faulty.env_disk_full Sample.url
     {| LoadMeArgs.deviceToken := None; LoadMeArgs.user := Some 1%nat |}).2 =
    Resolved {| LoadMeResult.error := Some "disk full";
                LoadMeResult.currentUser := None |}.
Proof.
  erewrite (loadMe_commit_failure Faulty.env_disk_full Sample.url
              {| LoadMeArgs.deviceToken := None;
                 LoadMeArgs.user := Some 1%nat |}
              {| database := "srv.db";
                 operator := Faulty.op (Rejected "disk full") |}
              Sample.good_client 1%nat); reflexivity.
Defined.

(** X16. [loadMe] is rejected in one case only: the authentication phase
    failed and the forced-logout check that follows was rejected; the
    rejection is that of the check. *)
Theorem loadMe_rejects_only_through_logout env serverUrl args e' :
  (loadMe env serverUrl args).2 = Rejected e' →
  ∃ client e,
    clients env !! serverUrl = Some client ∧
    (loadMeAuth client args).2 = Rejected e ∧
    forceLogoutIfNecessary env serverUrl e = Rejected e'.
Proof.
  intros Hrun.
  destruct (serverDatabases env !! serverUrl) as [sd|] eqn:Hdb;
    [|unfold loadMe in Hrun; by rewrite Hdb in Hrun].
  destruct (clients env !! serverUrl) as [client|] eqn:Hclient;
    [|unfold loadMe, getClient in Hrun; by rewrite Hdb, Hclient in Hrun].
  rewrite (loadMe_phases _ _ _ _ _ Hdb Hclient) in Hrun.
  destruct (loadMeAuth client args) as [t0 [currentUser|e]] eqn:Hauth.
  - destruct (loadMePrepare env serverUrl client currentUser)
      as [t1 [[op ms]|e]]; [|done].
    by destruct (loadMeCommit op ms) as [t2 [[]|e]].
  - exists client, e. split_and!; [done|by rewrite Hauth|].
    simpl in Hrun.
    destruct (forceLogoutIfNecessary env serverUrl e); congruence.
Qed.

Lemma loadMe_rejects_only_through_logout_witness :
  ∃ client e,
    clients Faulty.env_logout_fails !! Sample.url = Some client ∧
    (loadMeAuth client
       {| LoadMeArgs.deviceToken := None; LoadMeArgs.user := None |}).2
      = Rejected e ∧
    forceLogoutIfNecessary Faulty.env_logout_fails Sample.url e
      = Rejected "logout failed".
Proof.
  apply (loadMe_rejects_only_through_logout Faulty.env_logout_fails
           Sample.url
           {| LoadMeArgs.deviceToken := None; LoadMeArgs.user := None |}
           "logout failed").
  reflexivity.
Defined.

(** ** The role names *)

Lemma split_space_no_space (s : string) :
  Forall (λ piece, hasSpace piece = false) (split_space s).
Proof.
  induction s as [|c s IH]; simpl; [by repeat constructor|].
  destruct (Ascii.eqb c " ") eqn:Hc; [by constructor|].
  destruct (split_space s) as [|piece pieces].
  - repeat constructor. simpl. by rewrite Hc.
  - apply Forall_cons in IH as [Hpiece Hpieces].
    constructor; [|done]. simpl. by rewrite Hc.
Qed.

(** The pieces, joined by one space, give the string back. *)
Lemma join_split_space (s : string) : join_space (split_space s) = s.
Proof.
  induction s as [|c s IH]; simpl; [done|].
  destruct (Ascii.eqb c " ") eqn:Hc.
  - apply Ascii.eqb_eq in Hc as ->.
    pose proof (split_space_not_nil s) as Hne.
    destruct (split_space s) as [|piece pieces]; [done|].
    simpl in *. by rewrite IH.
  - destruct (split_space s) as [|piece pieces] eqn:Hs; simpl in *.
    + by rewrite <- IH.
    + destruct pieces; simpl in *; by rewrite <- IH.
Qed.

Lemma rolesToLoad_no_space userRoles (ms : list TeamMembership.t) :
  Forall (λ n, hasSpace n = false) (Set_from (collectRoles userRoles ms)).
Proof.
  apply Forall_forall. intros r Hr. apply elem_of_rolesToLoad in Hr.
  destruct Hr as [Hr|(m & _ & Hr)];
    by eapply (proj1 (Forall_forall _ _) (split_space_no_space _)).
Qed.

(** X17. Every role request that [loadMe] sends to the server is well
    formed: its name list is not empty and has no repeated name, and no
    name in it holds a space. *)
Theorem loadMe_role_requests_well_formed env serverUrl args :
  emits wellFormedRoleFetch (loadMe env serverUrl args).
Proof.
  unfold loadMe. emits_steps; try exact I.
  - unfold loadMePrepare. emits_steps; try exact I.
    unfold loadMeRoles. emits_steps; try exact I.
    simpl. split_and!.
    + apply rolesToLoad_not_nil.
    + apply NoDup_Set_from.
    + apply rolesToLoad_no_space.
  - by apply loadMeCommit_emits.
Qed.

(** ** The six-request join *)

(** X18. Once the authentication has succeeded, [loadMe] always sends
    the six requests, whatever they answer; when one of them is rejected,
    nothing else is called: no handler, no role request, no commit. *)
Theorem loadMe_sends_six_requests
    env serverUrl args sd client currentUser t0 :
  serverDatabases env !! serverUrl = Some sd →
  clients env !! serverUrl = Some client →
  loadMeAuth client args = (t0, Resolved currentUser) →
  ∃ rest,
    (loadMe env serverUrl args).1 =
      t0 ++ loadMeOpening env serverUrl currentUser ++ rest ∧
    (allAnswered client = false → rest = []).
Proof.
  intros Hdb Hclient Hauth.
  rewrite (loadMe_trace _ _ _ _ _ Hdb Hclient), Hauth. cbn [fst snd].
  rewrite bind_trace.
  assert (Hprep : ∃ rest,
    (loadMePrepare env serverUrl client currentUser).1 =
      loadMeOpening env serverUrl currentUser ++ rest ∧
    (allAnswered client = false →
     rest = [] ∧
     isResolved (loadMePrepare env serverUrl client currentUser).2 = false)).
  { unfold loadMePrepare, allAnswered.
    destruct (getMyTeams client); cbn; [|by eexists].
    destruct (getMyTeamMembers client); cbn; [|by eexists].
    destruct (getMyTeamUnreads client); cbn; [|by eexists].
    destruct (getMyPreferences client); cbn; [|by eexists].
    destruct (getClientConfigOld client); cbn; [|by eexists].
    destruct (getClientLicenseOld client); cbn; [|by eexists].
    by eexists. }
  destruct Hprep as (rest & Ht1 & Hrest). rewrite Ht1.
  eexists. split; [by rewrite <- app_assoc|].
  intros Hno. destruct (Hrest Hno) as [-> Hrej].
  by destruct (loadMePrepare env serverUrl client currentUser).2.
Qed.

Lemma loadMe_sends_six_requests_witness :
  (loadMe Sample.env_config_fails Sample.url
     {| LoadMeArgs.deviceToken := None; LoadMeArgs.user := Some 1%nat |}).1 =
    loadMeOpening Sample.env_config_fails Sample.url 1%nat.
Proof.
  destruct (loadMe_sends_six_requests Sample.env_config_fails Sample.url
              {| LoadMeArgs.deviceToken := None;
                 LoadMeArgs.user := Some 1%nat |}
              Sample.db
              (Sample.client 1%nat (Rejected "config unavailable")
                 [Sample.member_a])
              1%nat [])
    as (rest & Ht & Hrest); [reflexivity..|].
  rewrite Ht, Hrest; reflexivity.
Defined.

(** ** The counters of the derived My-Team records *)

Lemma myTeamOf_counts members unread :
  myTeamCounts unread (myTeamOf members unread).
Proof.
  unfold myTeamCounts, myTeamOf; simpl. split; [|done].
  apply Z.ltb_lt.
Qed.

(** X19. In a successful execution of [loadMe], the record derived from
    a team-unread entry is flagged unread exactly when the message count
    of the entry is above zero, and carries the mention count of the
    entry. *)
Theorem loadMe_myTeams_counts env serverUrl args t r :
  loadMe env serverUrl args = (t, Resolved r) →
  LoadMeResult.error r = None →
  ∃ client unreads myTeams,
    clients env !! serverUrl = Some client ∧
    getMyTeamUnreads client = Resolved unreads ∧
    handledMyTeams t = [myTeams] ∧
    Forall2 myTeamCounts unreads myTeams.
Proof.
  intros Hrun Herr.
  destruct (loadMe_success_inv _ _ _ _ _ Hrun Herr)
    as (sd & client & currentUser & t0 & t1 & op & ms & t2 &
        Hdb & Hclient & Hauth & Hprep & Hcommit & -> & _).
  destruct (loadMePrepare_myTeams _ _ _ _ _ _ _ Hprep)
    as (members & unreads & Hmembers & Hunreads & Hhandled).
  exists client, unreads, (map (myTeamOf members) unreads).
  split_and!; [done..| |].
  - unfold handledMyTeams in *. rewrite !omap_app, Hhandled.
    fold (handledMyTeams t0) (handledMyTeams t2).
    rewrite (handledMyTeams_none t0), (handledMyTeams_none t2); [done| |].
    + change t2 with (t2, Resolved ()).1. rewrite <- Hcommit.
      by apply loadMeCommit_emits.
    + change t0 with (t0, Resolved currentUser).1. rewrite <- Hauth.
      by apply loadMeAuth_emits.
  - apply Forall2_fmap_r, Forall_Forall2_diag, Forall_forall.
    intros unread _. apply myTeamOf_counts.
Qed.

Lemma loadMe_myTeams_counts_witness :
  ∃ myTeams,
    handledMyTeams
      (loadMe Sample.env Sample.url
         {| LoadMeArgs.deviceToken := None; LoadMeArgs.user := Some 1%nat |}).1
      = [myTeams] ∧
    Forall2 myTeamCounts [Sample.unread_a; Sample.unread_b] myTeams.
Proof.
  destruct (loadMe_myTeams_counts Sample.env Sample.url
              {| LoadMeArgs.deviceToken := None;
                 LoadMeArgs.user := Some 1%nat |}
              (loadMe Sample.env Sample.url
                 {| LoadMeArgs.deviceToken := None;
                    LoadMeArgs.user := Some 1%nat |}).1
              {| LoadMeResult.error := None;
                 LoadMeResult.currentUser := Some 1%nat |})
    as (client & unreads & myTeams & Hc & Hu & Hh & Hj);
    [by vm_compute|reflexivity|].
  exists myTeams. split; [exact Hh|].
  vm_compute in Hc. injection Hc as <-.
  vm_compute in Hu. injection Hu as <-. exact Hj.
Defined.

(** ** updateMe *)

(** X20. [updateMe] is rejected in one case only: the patch came back
    with a profile and the role refresh was rejected; the rejection is
    that of the refresh, and the upsert of the profile was already
    called. *)
Theorem updateMe_rejects_iff_refresh_rejects env serverUrl user e :
  (updateMe env serverUrl user).2 = Rejected e ↔
  ∃ sd client profile,
    serverDatabases env !! serverUrl = Some sd ∧
    clients env !! serverUrl = Some client ∧
    patchMe client (UserModel._raw user) = Resolved (Some profile) ∧
    fetchRolesIfNeeded env serverUrl
      (split_space (UserProfile.roles (heap env profile))) = Rejected e ∧
    EvHandleUsers false [profile] ∈ (updateMe env serverUrl user).1.
Proof.
  split.
  - intros Hrun.
    destruct (serverDatabases env !! serverUrl) as [sd|] eqn:Hdb;
      [|unfold updateMe in Hrun; by rewrite Hdb in Hrun].
    destruct (clients env !! serverUrl) as [client|] eqn:Hclient;
      [|unfold updateMe, getClient in Hrun; by rewrite Hdb, Hclient in Hrun].
    destruct (patchMe client (UserModel._raw user)) as [[profile|]|e0]
      eqn:Hpatch.
    + rewrite (updateMe_patched _ _ _ _ _ _ Hdb Hclient Hpatch) in Hrun |- *.
      exists sd, client, profile. split_and!; [done..| |].
      * simpl in Hrun.
        destruct (fetchRolesIfNeeded _ _ _); congruence.
      * right. left.
    + unfold updateMe, getClient in Hrun. rewrite Hdb, Hclient in Hrun.
      cbn in Hrun. by rewrite Hpatch in Hrun.
    + unfold updateMe, getClient in Hrun. rewrite Hdb, Hclient in Hrun.
      cbn in Hrun. by rewrite Hpatch in Hrun.
  - intros (sd & client & profile & Hdb & Hclient & Hpatch & Hrefresh & _).
    rewrite (updateMe_patched _ _ _ _ _ _ Hdb Hclient Hpatch). simpl.
    by rewrite Hrefresh.
Qed.

Lemma updateMe_rejects_iff_refresh_rejects_witness :
  (updateMe Faulty.env_refresh_fails Sample.url
     {| UserModel._raw := {| RawUser.id := "me";
                             RawUser.roles := "system_user" |} |}).2
    = Rejected "roles refused".
Proof.
  apply (updateMe_rejects_iff_refresh_rejects Faulty.env_refresh_fails
           Sample.url
           {| UserModel._raw := {| RawUser.id := "me";
                                   RawUser.roles := "system_user" |} |}
           "roles refused").
  exists {| database := "srv.db"; operator := Sample.op |},
         Sample.good_client, 1%nat.
  split_and!; [reflexivity..|]. right. left.
Defined.

(** X21. When the patch is rejected, [updateMe] logs the error and
    returns it: it calls neither the store nor the role refresh, and no
    forced-logout check. *)
Theorem updateMe_patch_failure env serverUrl user sd client e :
  serverDatabases env !! serverUrl = Some sd →
  clients env !! serverUrl = Some client →
  patchMe client (UserModel._raw user) = Rejected e →
  updateMe env serverUrl user =
    ([EvPatchMe (UserModel._raw user); EvLogError e],
     Resolved {| UpdateMeResult.data := None;
                 UpdateMeResult.error := Some e |}).
Proof.
  intros Hdb Hclient Hpatch. unfold updateMe, getClient.
  rewrite Hdb, Hclient. cbn. by rewrite Hpatch.
Qed.

Lemma updateMe_patch_failure_witness :
  updateMe Faulty.env_patch_fails Sample.url
    {| UserModel._raw := {| RawUser.id := "me";
                            RawUser.roles := "system_user" |} |} =
    ([EvPatchMe {| RawUser.id := "me"; RawUser.roles := "system_user" |};
      EvLogError "patch refused"],
     Resolved {| UpdateMeResult.data := None;
                 UpdateMeResult.error := Some "patch refused" |}).
Proof.
  apply (updateMe_patch_failure Faulty.env_patch_fails Sample.url
           {| UserModel._raw := {| RawUser.id := "me";
                                   RawUser.roles := "system_user" |} |}
           {| database := "srv.db"; operator := Sample.op |}
           (Faulty.client (Resolved 1%nat) (Resolved tt)
              (Rejected "patch refused"))
           "patch refused"); reflexivity.
Defined.

(** X22. When the patch succeeds but answers with no profile,
    [updateMe] calls nothing else and returns a result with neither data
    nor error. *)
Theorem updateMe_patch_without_profile env serverUrl user sd client :
  serverDatabases env !! serverUrl = Some sd →
  clients env !! serverUrl = Some client →
  patchMe client (UserModel._raw user) = Resolved None →
  updateMe env serverUrl user =
    ([EvPatchMe (UserModel._raw user)],
     Resolved {| UpdateMeResult.data := None;
                 UpdateMeResult.error := None |}).
Proof.
  intros Hdb Hclient Hpatch. unfold updateMe, getClient.
  rewrite Hdb, Hclient. cbn. by rewrite Hpatch.
Qed.

Lemma updateMe_patch_without_profile_witness :
  updateMe Faulty.env_patch_empty Sample.url
    {| UserModel._raw := {| RawUser.id := "me";
                            RawUser.roles := "system_user" |} |} =
    ([EvPatchMe {| RawUser.id := "me"; RawUser.roles := "system_user" |}],
     Resolved {| UpdateMeResult.data := None;
                 UpdateMeResult.error := None |}).
Proof.
  apply (updateMe_patch_without_profile Faulty.env_patch_empty Sample.url
           {| UserModel._raw := {| RawUser.id := "me";
                                   RawUser.roles := "system_user" |} |}
           {| database := "srv.db"; operator := Sample.op |}
           (Faulty.client (Resolved 1%nat) (Resolved tt) (Resolved None)));
    reflexivity.
Defined.

(** X23. The only call [updateMe] ever makes to the store is one
    immediate upsert of the profile the patch returned; it never stages
    and never batch-commits. *)
Theorem updateMe_store_calls env serverUrl user :
  let t := (updateMe env serverUrl user).1 in
  storeCalls t = [] ∨
  ∃ client profile,
    clients env !! serverUrl = Some client ∧
    patchMe client (UserModel._raw user) = Resolved (Some profile) ∧
    storeCalls t = [EvHandleUsers false [profile]].
Proof.
  cbv zeta.
  destruct (serverDatabases env !! serverUrl) as [sd|] eqn:Hdb;
    [|left; unfold updateMe; by rewrite Hdb].
  destruct (clients env !! serverUrl) as [client|] eqn:Hclient;
    [|left; unfold updateMe, getClient; by rewrite Hdb, Hclient].
  destruct (patchMe client (UserModel._raw user)) as [[profile|]|e] eqn:Hpatch.
  - right. exists client, profile. split_and!; [done..|].
    by rewrite (updateMe_patched _ _ _ _ _ _ Hdb Hclient Hpatch).
  - left. unfold updateMe, getClient. rewrite Hdb, Hclient. cbn.
    by rewrite Hpatch.
  - left. unfold updateMe, getClient. rewrite Hdb, Hclient. cbn.
    by rewrite Hpatch.
Qed.

(** ** The role strings *)

(** X24. Splitting a role string on spaces loses nothing: no piece holds
    a space, there is at least one piece, and the pieces joined by single
    spaces give the role string back. *)
Theorem role_string_split_round_trip (roles : string) :
  split_space roles ≠ [] ∧
  Forall (λ piece, hasSpace piece = false) (split_space roles) ∧
  join_space (split_space roles) = roles.
Proof.
  split_and!.
  - apply split_space_not_nil.
  - apply split_space_no_space.
  - apply join_split_space.
Qed.
